(** * Intelligent Study Planner: a shallow embedding and its properties

    The development follows [IntelligentStudyPlanner.py].  Conventions:

    - a [datetime.date] is its proleptic day number, a [Z]; [date + timedelta(days=k)]
      is addition on [Z] and [(b - a).days] is subtraction.  The calendar's upper
      limit (year 9999) is not part of the model;
    - a [datetime.datetime] inside one day of the timetable is the number of
      microseconds since that day's midnight, a [Z];
    - the module-level list [subjects] of dict objects is a [list subject]; an
      object reference is an index into that list (no dict occurs twice in it:
      every element is created by [load_subjects] or by [add_subject_command]);
    - a Python [dict] keyed by subject names is a [gmap string _], a [set] of dates
      a [gset Z]. *)

From Stdlib Require Import ZArith QArith Qround Lia Lqa Ascii String.
From stdpp Require Import gmap strings list fin_maps sorting.

Local Open Scope Z_scope.

(** ** Subjects *)

Record subject := Subject {
  name : string;
  difficulty : Z;
  deadline : Z;
  marks : Z
}.

#[global] Instance subject_eq_dec : EqDecision subject.
Proof. solve_decision. Defined.

(** [s['deadline'] = d] on one dict object. *)
Definition set_deadline (s : subject) (d : Z) : subject :=
  {| name := name s; difficulty := difficulty s; deadline := d; marks := marks s |}.

(** ** Clash detection *)

(** [detect_clashes]: [len(dates) != len(set(dates))]. *)
Definition detect_clashes (subs : list subject) : bool :=
  let dates := deadline <$> subs in
  negb (length dates =? size (list_to_set dates : gset Z))%nat.

(** ** [sorted(l, key=...)]: Python's sort is stable; insertion from the right,
    placing an element before the first one whose key is not smaller. *)

Fixpoint insert_by {A} (key : A → Z) (x : A) (l : list A) : list A :=
  match l with
  | [] => [x]
  | y :: l' => if key x <=? key y then x :: y :: l' else y :: insert_by key x l'
  end.

Definition sorted {A} (key : A → Z) (l : list A) : list A :=
  foldr (insert_by key) [] l.

(** The order [sorted] establishes. *)
Definition key_le {A} (key : A → Z) (x y : A) : Prop := key x ≤ key y.

(** ** Clash resolution *)

(** The inner loop [while d in used: d += timedelta(days=1)].  The loop body
    runs at most [size used] times, so [S (size used)] unfoldings reach its
    exit; [next_free_unfold] below is the loop's own equation. *)
Fixpoint next_free_loop (fuel : nat) (used : gset Z) (d : Z) : Z :=
  match fuel with
  | O => d
  | S fuel' => if decide (d ∈ used) then next_free_loop fuel' used (d + 1) else d
  end.

Definition next_free (used : gset Z) (d : Z) : Z :=
  next_free_loop (S (size used)) used d.

(** The dates of [used] the search can still meet from [d] on. *)
Definition ahead (used : gset Z) (d : Z) : gset Z := filter (λ x, d ≤ x) used.

(** The key read by [sorted] for the object at reference [i]. *)
Definition deadline_at (subs : list subject) (i : nat) : Z :=
  from_option deadline 0 (subs !! i).

(** The references in the order in which the [for] loop visits them. *)
Definition visit_order (subs : list subject) : list nat :=
  sorted (deadline_at subs) (seq 0 (length subs)).

(** One iteration of the [for] loop on the object at reference [i]: the store
    is updated in place, the chosen date joins [used]. *)
Definition visit (acc : list subject * gset Z) (i : nat) : list subject * gset Z :=
  match acc.1 !! i with
  | Some s =>
      let d := next_free acc.2 (deadline s) in
      (<[i := set_deadline s d]> acc.1, {[d]} ∪ acc.2)
  | None => acc
  end.

(** [rearrange_schedule(subs)]: the list after the in-place updates. *)
Definition rearrange_schedule (subs : list subject) : list subject :=
  (foldl visit (subs, ∅) (visit_order subs)).1.

(** ** The subject store and its commands *)

(** The in-memory list [subjects] and the content of [subjects.json] as last
    written by [save_subjects]. *)
Record store := Store {
  subjects : list subject;
  saved : list subject
}.

Definition save_subjects (st : store) : store :=
  {| subjects := subjects st; saved := subjects st |}.

(** What a command prints, by message. *)
Inductive report :=
  | InvalidFormatAdd
  | InvalidDifficulty
  | InvalidDate
  | InvalidMarks
  | Added (nm : string)
  | InvalidFormatRes
  | Rescheduled (nm : string) (d : Z)
  | NotFound (nm : string)
  | Cleared.

(** [date_map] of [handle_clashes]: the names grouped by deadline. *)
Definition date_map (subs : list subject) : gmap Z (list string) :=
  foldl (λ m s, <[deadline s := default [] (m !! deadline s) ++ [name s]]> m) ∅ subs.

Definition conflicts (subs : list subject) : gmap Z (list string) :=
  filter (λ kv, (1 < length kv.2)%nat) (date_map subs).

(** [handle_clashes]; [choice] is the answer read at the prompt, stripped and
    lower-cased.  It is read only when [conflicts] is not empty. *)
Definition handle_clashes (choice : string) (st : store) : store :=
  if decide (conflicts (subjects st) = ∅) then st
  else if decide (choice = "yes")
       then save_subjects {| subjects := rearrange_schedule (subjects st); saved := saved st |}
       else st.

Section Commands.
(** Library functions and configuration the commands consult:
    [str.split()], [str.lower()], [datetime.strptime(_, "%Y-%m-%d").date()]
    and [int(_)] ([None] where Python raises), and [difficulty.json]. *)
Variable str_split : string → list string.
Variable str_lower : string → string.
Variable strptime_date : string → option Z.
Variable int_of_str : string → option Z.
Variable difficulty_map : gmap string Z.

Definition parse_date (s : string) : option Z := strptime_date s.

Definition add_subject_command (cmd : string) (choice : string) (st : store)
  : report * store :=
  match str_split cmd with
  | [_; _; nm; diff_str; deadline_str; marks_str] =>
      match difficulty_map !! str_lower diff_str with
      | None => (InvalidDifficulty, st)
      | Some diff =>
          match parse_date deadline_str with
          | None => (InvalidDate, st)
          | Some dl =>
              match int_of_str marks_str with
              | None => (InvalidMarks, st)
              | Some m =>
                  let subject :=
                    {| name := nm; difficulty := diff; deadline := dl; marks := m |} in
                  let st1 :=
                    save_subjects {| subjects := subjects st ++ [subject];
                                     saved := saved st |} in
                  (Added nm,
                   if detect_clashes (subjects st1) then handle_clashes choice st1
                   else st1)
              end
          end
      end
  | _ => (InvalidFormatAdd, st)
  end.

Definition reschedule_subject (cmd : string) (st : store) : report * store :=
  match str_split cmd with
  | [_; nm; new_date_str] =>
      match parse_date new_date_str with
      | None => (InvalidDate, st)
      | Some new_date =>
          match list_find (λ s, name s = nm) (subjects st) with
          | Some (i, s) =>
              (Rescheduled nm new_date,
               save_subjects {| subjects := <[i := set_deadline s new_date]> (subjects st);
                                saved := saved st |})
          | None => (NotFound nm, st)
          end
      end
  | _ => (InvalidFormatRes, st)
  end.

(** The failure conditions of the two commands, as the code tests them. *)
Definition add_fails (cmd : string) : Prop :=
  match str_split cmd with
  | [_; _; _; diff_str; deadline_str; marks_str] =>
      difficulty_map !! str_lower diff_str = None ∨
      parse_date deadline_str = None ∨
      int_of_str marks_str = None
  | _ => True
  end.

Definition reschedule_fails (cmd : string) (st : store) : Prop :=
  match str_split cmd with
  | [_; nm; new_date_str] =>
      parse_date new_date_str = None ∨ Forall (λ s, name s ≠ nm) (subjects st)
  | _ => True
  end.
End Commands.

(** The reports of an error path. *)
Definition failure (r : report) : Prop :=
  match r with
  | Added _ | Rescheduled _ _ | Cleared => False
  | _ => True
  end.

Definition reset_command (st : store) : report * store :=
  (Cleared, save_subjects {| subjects := []; saved := saved st |}).

(** ** The plan *)

Record plan_entry := PlanEntry {
  daily_hours : Z;
  days_left : Z;
  plan_deadline : Z
}.

Definition days_between (a b : Z) : Z := b - a.

Section Plan.
(** [predict_study_hours]: the regression model or the heuristic, an integer. *)
Variable predict_study_hours : Z → Z → Z.
Variable today : Z.

(** The dict literal assigned to [schedule[s["name"]]]. *)
Definition entry_of (s : subject) : plan_entry :=
  {| daily_hours := predict_study_hours (difficulty s) (marks s);
     days_left := Z.max 1 (days_between today (deadline s));
     plan_deadline := deadline s |}.

(** [generate_plan]: [None] for the empty store. *)
Definition generate_plan (subs : list subject) : option (gmap string plan_entry) :=
  match subs with
  | [] => None
  | _ => Some (foldl (λ schedule s, <[name s := entry_of s]> schedule) ∅ subs)
  end.
End Plan.

(** ** The timetable *)

(** How a call ends: with a value, with a Python exception, or not within the
    given number of iterations of the allocation loop (which need not end). *)
Inductive exn := ValueError | KeyError.

Inductive outcome (A : Type) :=
  | Done (a : A)
  | Raised (e : exn)
  | OutOfFuel.
Arguments Done {A} a.
Arguments Raised {A} e.
Arguments OutOfFuel {A}.

#[global] Instance outcome_ret : MRet outcome := λ A a, Done a.
#[global] Instance outcome_bind : MBind outcome := λ A B f c,
  match c with
  | Done a => f a
  | Raised e => Raised e
  | OutOfFuel => OutOfFuel
  end.

(** The numbers of the allocation loop.  [hours_left] starts from the plan's
    integers and continues with the results of subtracting [block_hours], a
    float; the loop uses only the operations below.  [timedelta_hours h] is
    [timedelta(hours=h)] in microseconds. *)
Class HourOps (H : Type) := {
  of_int : Z → H;
  h_min : H → H → H;
  h_sub : H → H → H;
  h_le0 : H → bool;
  h_truth : H → bool;
  timedelta_hours : H → Z
}.

(** What the properties of the timetable need of these numbers: a block is
    never longer than [block_hours], and never of negative length when both
    [block_hours] and the hours left are positive. *)
Class HourLaws (H : Type) `{HourOps H} : Prop := {
  timedelta_min_le : ∀ b h : H, timedelta_hours (h_min b h) ≤ timedelta_hours b;
  timedelta_min_nonneg : ∀ b h : H,
    h_le0 b = false → h_le0 h = false → 0 ≤ timedelta_hours (h_min b h)
}.

(** One entry of [day_schedule].  The source stores the rendered line
    [format_block]; the model keeps the two datetimes and the label. *)
Record block := Block {
  blk_start : Z;
  blk_end : Z;
  blk_subject : string
}.

Definition us_per_minute : Z := 60000000.
Definition us_per_hour : Z := 3600000000.
Definition us_per_day : Z := 86400000000.

Definition digit (n : Z) : ascii := ascii_of_nat (48 + Z.to_nat n).

Definition two_digits (n : Z) : string :=
  String (digit (n / 10)) (String (digit (n mod 10)) EmptyString).

(** [t.strftime('%H:%M')]. *)
Definition strftime_HM (t : Z) : string :=
  let tod := t mod us_per_day in
  two_digits (tod / us_per_hour) +:+ ":" +:+ two_digits (tod mod us_per_hour / us_per_minute).

Definition format_block (b : block) : string :=
  strftime_HM (blk_start b) +:+ " - " +:+ strftime_HM (blk_end b) +:+ " : " +:+ blk_subject b.

(** [datetime.time(hour, 0)] as an offset from midnight. *)
Definition time_of_hour (hour : Z) : outcome Z :=
  if (0 <=? hour) && (hour <=? 23) then Done (hour * us_per_hour) else Raised ValueError.

(** [l[k:] + l[:k]]. *)
Definition rotate_left {A} (k : nat) (l : list A) : list A := drop k l ++ take k l.

(** The names of the day's subjects in the order of the chosen policy. *)
Definition day_order (order_pref : string) (fixed_order : list string)
    (day_offset : nat) (active_subjects : list subject) : list string :=
  if decide (order_pref = "A") then
    name <$> filter (λ s, name s ∈ fixed_order) active_subjects
  else if decide (order_pref = "B") then
    let names := name <$> active_subjects in
    rotate_left (day_offset mod length names) names
  else if decide (order_pref = "C") then
    name <$> sorted deadline active_subjects
  else name <$> active_subjects.

(** The state of one day's allocation. *)
Record alloc (H : Type) := Alloc {
  hours_left : gmap string H;
  current_time : Z;
  day_schedule : list block
}.
Arguments Alloc {H}.
Arguments hours_left {H}.
Arguments current_time {H}.
Arguments day_schedule {H}.

Section Allocation.
Context {H : Type} `{HourOps H}.
Variable block_hours : H.
Variable break_minutes : Z.
Variable end_time : Z.

(** [current_time + timedelta(hours=block_hours) <= end_time]. *)
Definition fits (t : Z) : bool := t + timedelta_hours block_hours <=? end_time.

(** [any(hours_left.values())] and [all(h <= 0 for h in hours_left.values())]. *)
Definition any_hours (m : gmap string H) : bool := existsb h_truth (map_to_list m).*2.
Definition all_done (m : gmap string H) : bool := forallb h_le0 (map_to_list m).*2.

(** The body of the [for sub_name in day_order] loop when a block is given. *)
Definition allocate (sub_name : string) (h : H) (st : alloc H) : alloc H :=
  let len := h_min block_hours h in
  let block_end := current_time st + timedelta_hours len in
  {| hours_left := <[sub_name := h_sub h len]> (hours_left st);
     current_time := block_end + break_minutes * us_per_minute;
     day_schedule := day_schedule st ++ [Block (current_time st) block_end sub_name] |}.

(** One pass of the [for] loop, from [order] on; it ends early at [break]. *)
Fixpoint for_pass (order : list string) (st : alloc H) : outcome (alloc H) :=
  match order with
  | [] => Done st
  | sub_name :: rest =>
      match hours_left st !! sub_name with
      | None => Raised KeyError
      | Some h =>
          if h_le0 h then for_pass rest st
          else
            let st' := allocate sub_name h st in
            if fits (current_time st') then for_pass rest st' else Done st'
      end
  end.

(** The [while] loop; [fuel] bounds the number of passes. *)
Fixpoint while_loop (fuel : nat) (order : list string) (st : alloc H)
  : outcome (alloc H) :=
  match fuel with
  | O => OutOfFuel
  | S fuel' =>
      if fits (current_time st) && any_hours (hours_left st) then
        st' ← for_pass order st;
        if all_done (hours_left st') then Done st' else while_loop fuel' order st'
      else Done st
  end.
End Allocation.

Section Timetable.
Context {H : Type} `{HourOps H}.
Variable fuel : nat.
Variable subjects : list subject.
Variable plan : gmap string plan_entry.
Variable today : Z.
Variables start_hour end_hour : Z.
Variable block_hours : H.
Variable break_minutes : Z.
Variable order_pref : string.

Definition fixed_order : list string := name <$> subjects.

Definition active_on (day_date : Z) : list subject :=
  filter (λ s, day_date ≤ deadline s) subjects.

(** [{s['name']: plan[s['name']]['daily_hours'] for s in active_subjects}]. *)
Fixpoint initial_hours (active : list subject) (m : gmap string H)
  : outcome (gmap string H) :=
  match active with
  | [] => Done m
  | s :: rest =>
      match plan !! name s with
      | None => Raised KeyError
      | Some e => initial_hours rest (<[name s := of_int (daily_hours e)]> m)
      end
  end.

(** The body of [for day_offset in range(total_days)]: [None] when the day
    is skipped, else the entry written to [timetable[day_date]]. *)
Definition schedule_day (day_offset : nat) : outcome (option (Z * list block)) :=
  let day_date := today + Z.of_nat day_offset in
  let active_subjects := active_on day_date in
  match active_subjects with
  | [] => Done None
  | _ =>
      let order := day_order order_pref fixed_order day_offset active_subjects in
      hours ← initial_hours active_subjects ∅;
      current ← time_of_hour start_hour;
      end_time ← time_of_hour end_hour;
      st ← while_loop block_hours break_minutes end_time fuel order
             {| hours_left := hours; current_time := current; day_schedule := [] |};
      Done (Some (day_date, day_schedule st))
  end.

Fixpoint days_loop (offsets : list nat) : outcome (list (Z * list block)) :=
  match offsets with
  | [] => Done []
  | day_offset :: rest =>
      entry ← schedule_day day_offset;
      timetable ← days_loop rest;
      Done (option_list entry ++ timetable)
  end.

(** [generate_timetable] after its prompts: the dict [timetable] in insertion
    order, or [None] when there is nothing to schedule. *)
Definition generate_timetable : outcome (option (list (Z * list block))) :=
  match subjects with
  | [] => Done None
  | s :: rest =>
      if decide (plan = ∅) then Done None
      else
        let last_day := foldl Z.max (deadline s) (deadline <$> rest) in
        let total_days := days_between today last_day + 1 in
        timetable ← days_loop (seq 0 (Z.to_nat total_days));
        Done (Some timetable)
  end.
End Timetable.

(** The lines printed for one day. *)
Definition render_day (entry : Z * list block) : Z * list string :=
  (entry.1, format_block <$> entry.2).

(** ** Exact hours

    The hours as rationals: the comparisons, [min] and the subtraction are
    exact, and [timedelta(hours=h)] rounds to the nearest microsecond, ties to
    even.  On the inputs of the scenarios below every intermediate value is a
    small integer, on which Python's floats are exact as well. *)

Definition round_half_even (q : Q) : Z :=
  let f := Qfloor q in
  match Qcompare (q - inject_Z f) (1 # 2) with
  | Lt => f
  | Gt => f + 1
  | Eq => if Z.even f then f else f + 1
  end.

#[global] Instance Q_hours : HourOps Q := {|
  of_int := inject_Z;
  h_min := λ b h, if Qle_bool b h then b else h;
  h_sub := Qminus;
  h_le0 := λ h, Qle_bool h 0;
  h_truth := λ h, negb (Qeq_bool h 0);
  timedelta_hours := λ h, round_half_even (h * inject_Z us_per_hour)
|}.

(** ** The library functions on ASCII text

    Reference versions of [str.split()], [str.lower()], [int(_)] and
    [strptime(_, "%Y-%m-%d")] for ASCII input, used to run the commands on
    concrete command lines. *)

Definition code (a : ascii) : Z := Z.of_nat (nat_of_ascii a).

Definition is_py_space (a : ascii) : bool :=
  let c := code a in
  ((9 <=? c) && (c <=? 13)) || ((28 <=? c) && (c <=? 32)).

Fixpoint split_go (cur : option string) (s : string) : list string :=
  match s with
  | EmptyString => option_list (String.rev <$> cur)
  | String a s' =>
      if is_py_space a then option_list (String.rev <$> cur) ++ split_go None s'
      else split_go (Some (String a (default EmptyString cur))) s'
  end.

Definition py_split (s : string) : list string := split_go None s.

Definition lower_ascii (a : ascii) : ascii :=
  let c := code a in
  if (65 <=? c) && (c <=? 90) then ascii_of_nat (Z.to_nat (c + 32)) else a.

Fixpoint py_lower (s : string) : string :=
  match s with
  | EmptyString => EmptyString
  | String a s' => String (lower_ascii a) (py_lower s')
  end.

Definition digit_val (a : ascii) : option Z :=
  let c := code a in
  if (48 <=? c) && (c <=? 57) then Some (c - 48) else None.

(** The digits of an integer literal; one underscore may separate two digits. *)
Fixpoint int_digits (acc : Z) (after_digit : bool) (s : string) : option Z :=
  match s with
  | EmptyString => if after_digit then Some acc else None
  | String a s' =>
      match digit_val a with
      | Some v => int_digits (10 * acc + v) true s'
      | None =>
          if decide (a = "_"%char) then
            if after_digit then
              match s' with
              | EmptyString => None
              | String b _ => if decide (b = "_"%char) then None
                              else int_digits acc false s'
              end
            else None
          else None
      end
  end.

Definition py_int (s : string) : option Z :=
  match s with
  | String "+" s' => int_digits 0 false s'
  | String "-" s' => Z.opp <$> int_digits 0 false s'
  | _ => int_digits 0 false s
  end.

Definition is_leap (y : Z) : bool :=
  (y mod 4 =? 0) && (negb (y mod 100 =? 0) || (y mod 400 =? 0)).

Definition days_in_month (y m : Z) : Z :=
  if m =? 2 then (if is_leap y then 29 else 28)
  else if (m =? 4) || (m =? 6) || (m =? 9) || (m =? 11) then 30 else 31.

Definition days_before_year (y : Z) : Z :=
  let p := y - 1 in p * 365 + p / 4 - p / 100 + p / 400.

Fixpoint days_before_month (y : Z) (m : nat) : Z :=
  match m with
  | O => 0
  | S m' => days_before_month y m' + (if (m' =? 0)%nat then 0 else days_in_month y (Z.of_nat m'))
  end.

(** [date(y, m, d).toordinal()], for a valid date. *)
Definition ymd_to_ordinal (y m d : Z) : option Z :=
  if (1 <=? y) && (y <=? 9999) && (1 <=? m) && (m <=? 12)
     && (1 <=? d) && (d <=? days_in_month y m)
  then Some (days_before_year y + days_before_month y (Z.to_nat m) + d)
  else None.

(** One or two characters as the month or day number of the format. *)
Definition month_field (s : list ascii) : option Z :=
  match s with
  | [a] => v ← digit_val a; if 1 <=? v then Some v else None
  | [a; b] =>
      va ← digit_val a; vb ← digit_val b;
      let v := 10 * va + vb in
      if (1 <=? v) && (v <=? 12) then Some v else None
  | _ => None
  end.

Definition day_field (s : list ascii) : option Z :=
  match s with
  | [a] => v ← digit_val a; if 1 <=? v then Some v else None
  | [a; b] =>
      vb ← digit_val b;
      if decide (a = " "%char) then (if 1 <=? vb then Some vb else None)
      else
        va ← digit_val a;
        let v := 10 * va + vb in
        if (1 <=? v) && (v <=? 31) then Some v else None
  | _ => None
  end.

Fixpoint split_dash (s : list ascii) : list ascii * option (list ascii) :=
  match s with
  | [] => ([], None)
  | a :: s' =>
      if decide (a = "-"%char) then ([], Some s')
      else let r := split_dash s' in (a :: r.1, r.2)
  end.

Definition py_strptime_date (s : string) : option Z :=
  match list_ascii_of_string s with
  | y1 :: y2 :: y3 :: y4 :: dash :: rest =>
      a ← digit_val y1; b ← digit_val y2; c ← digit_val y3; d ← digit_val y4;
      if decide (dash = "-"%char) then
        let r := split_dash rest in
        m ← month_field r.1;
        dd ← r.2 ≫= day_field;
        ymd_to_ordinal (1000 * a + 100 * b + 10 * c + d) m dd
      else None
  | _ => None
  end.

(** [DEFAULT_DIFF]. *)
Definition DEFAULT_DIFF : gmap string Z :=
  <["low" := 1]> (<["medium" := 2]> (<["high" := 3]> ∅)).

(** ** Saving and loading the subjects *)

(** One object of [subjects.json]: a subject with its deadline as text. *)
Record raw_subject := RawSubject {
  raw_name : string;
  raw_difficulty : Z;
  raw_deadline : string;
  raw_marks : Z
}.

(** The year, month and day of a day number within one cycle of 400 years
    ([r] counts the days since the first day of the cycle). *)
Definition ord2ymd_cycle (r : Z) : Z * Z * Z :=
  let n100 := r / 36524 in
  let r1 := r mod 36524 in
  let n4 := r1 / 1461 in
  let r2 := r1 mod 1461 in
  let n1 := r2 / 365 in
  let n := r2 mod 365 in
  let year := 1 + n100 * 100 + n4 * 4 + n1 in
  if (n1 =? 4) || (n100 =? 4) then (year - 1, 12, 31)
  else
    let month := Z.shiftr (n + 50) 5 in
    let preceding := days_before_month year (Z.to_nat month) in
    if preceding >? n
    then (year, month - 1, n - days_before_month year (Z.to_nat (month - 1)) + 1)
    else (year, month, n - preceding + 1).

(** [date.fromordinal(d)] as year, month and day. *)
Definition ord2ymd (d : Z) : Z * Z * Z :=
  let '(y, m, dd) := ord2ymd_cycle ((d - 1) mod 146097) in
  (y + 400 * ((d - 1) / 146097), m, dd).

Definition four_digits (n : Z) : string :=
  String (digit (n / 1000)) (String (digit (n / 100 mod 10))
    (String (digit (n / 10 mod 10)) (String (digit (n mod 10)) EmptyString))).

Definition format_ymd (y m d : Z) : string :=
  four_digits y +:+ "-" +:+ two_digits m +:+ "-" +:+ two_digits d.

(** [d.strftime("%Y-%m-%d")].  For a year below 1000 the C library decides
    how the year is padded; the model pads it with zeros, and the properties
    of saving are stated for the years from 1000 on. *)
Definition strftime_date (d : Z) : string :=
  let '(y, m, dd) := ord2ymd d in format_ymd y m dd.

(** The list [serializable] that [save_subjects] hands to [json.dump]. *)
Definition serializable (subs : list subject) : list raw_subject :=
  (λ s, {| raw_name := name s; raw_difficulty := difficulty s;
           raw_deadline := strftime_date (deadline s); raw_marks := marks s |}) <$> subs.

(** [load_subjects] on the objects of the file; a deadline that does not
    parse becomes today. *)
Definition load_subjects (strptime_date : string → option Z) (today : Z)
    (raw : list raw_subject) : list subject :=
  (λ r, {| name := raw_name r; difficulty := raw_difficulty r;
           deadline := default today (strptime_date (raw_deadline r));
           marks := raw_marks r |}) <$> raw.

(** The check of [ord2ymd_cycle] against [ymd_to_ordinal] on one day of the
    cycle, and on [fuel] days from [r] on. *)
Definition cycle_ok (r : Z) : bool :=
  let '(y, m, d) := ord2ymd_cycle r in
  (1 <=? y) && (y <=? 400) && ((146097 - 367 <? r) || (y <=? 399)) &&
  bool_decide (ymd_to_ordinal y m d = Some (r + 1)).

Fixpoint cycle_ok_from (fuel : nat) (r : Z) : bool :=
  match fuel with
  | O => true
  | S fuel' => cycle_ok r && cycle_ok_from fuel' (r + 1)
  end.

(** The first and the last day that [strftime] writes with a four-digit year:
    1000-01-01 and 9999-12-31. *)
Definition first_written_day : Z := 364878.
Definition last_day_of_calendar : Z := 3652059.

(** ** Example data *)

(** Two subjects due on 2024-06-10 (day 739047) and one due the day after. *)
Definition clash_example : list subject :=
  [ {| name := "Physics"; difficulty := 3; deadline := 739047; marks := 40 |};
    {| name := "History"; difficulty := 1; deadline := 739048; marks := 80 |};
    {| name := "Biology"; difficulty := 2; deadline := 739047; marks := 60 |} ].

(** The scenario of the timetable: Math, medium, due in three days, marks 50,
    two hours a day; the window 9 to 12, blocks of one hour, breaks of ten
    minutes, fixed order. *)
Definition math_subjects (today : Z) : list subject :=
  [ {| name := "Math"; difficulty := 2; deadline := today + 3; marks := 50 |} ].

Definition predict_two (diff marks : Z) : Z := 2.

Definition math_blocks : list block :=
  [ {| blk_start := 9 * us_per_hour; blk_end := 10 * us_per_hour; blk_subject := "Math" |};
    {| blk_start := 10 * us_per_hour + 10 * us_per_minute;
       blk_end := 11 * us_per_hour + 10 * us_per_minute; blk_subject := "Math" |} ].

Definition math_lines : list string :=
  [ "09:00 - 10:00 : Math"; "10:10 - 11:10 : Math" ].

Definition math_plan : gmap string plan_entry :=
  {[ "Math" := {| daily_hours := 2; days_left := 3; plan_deadline := 739050 |} ]}.

Definition math_timetable : list (Z * list block) :=
  [ (739047, math_blocks); (739048, math_blocks);
    (739049, math_blocks); (739050, math_blocks) ].

Definition math_empty_days : list (Z * list block) :=
  [ (739047, []); (739048, []); (739049, []); (739050, []) ].

(** Two subjects, Art due one day before Math; the plan [generate_plan]
    builds for them on day 739047 with two hours for Math and one for Art. *)
Definition two_subjects : list subject :=
  [ {| name := "Math"; difficulty := 2; deadline := 739049; marks := 50 |};
    {| name := "Art"; difficulty := 1; deadline := 739048; marks := 70 |} ].

Definition two_plan : gmap string plan_entry :=
  {[ "Math" := {| daily_hours := 2; days_left := 2; plan_deadline := 739049 |};
     "Art" := {| daily_hours := 1; days_left := 1; plan_deadline := 739048 |} ]}.

(** The printed lines of a timetable, when there is one. *)
Definition printed (r : outcome (option (list (Z * list block))))
  : option (list (Z * list string)) :=
  match r with
  | Done (Some timetable) => Some (render_day <$> timetable)
  | _ => None
  end.

(** The empty store, and a store holding [clash_example]. *)
Definition empty_store : store := {| subjects := []; saved := [] |}.
Definition clash_store : store := {| subjects := clash_example; saved := clash_example |}.

(** The commands with the ASCII library functions and the default difficulties. *)
Definition add_ascii : string → string → store → report * store :=
  add_subject_command py_split py_lower py_strptime_date py_int DEFAULT_DIFF.
Definition reschedule_ascii : string → store → report * store :=
  reschedule_subject py_split py_strptime_date.

(** ** Specification predicates *)

(** The state of [rearrange_schedule]'s loop after the references in [P] have
    been visited, in terms of the list [subs] it started from. *)
Record resolved (subs : list subject) (P : gset nat) (acc : list subject * gset Z)
  : Prop := {
  res_length : length acc.1 = length subs;
  res_frame : ∀ i s', acc.1 !! i = Some s' →
    ∃ s, subs !! i = Some s ∧ name s' = name s ∧ difficulty s' = difficulty s ∧
         marks s' = marks s ∧ deadline s ≤ deadline s' ∧ (i ∉ P → s' = s);
  res_used : ∀ d, d ∈ acc.2 ↔ ∃ i s', i ∈ P ∧ acc.1 !! i = Some s' ∧ deadline s' = d;
  res_distinct : ∀ i j si sj, i ∈ P → j ∈ P →
    acc.1 !! i = Some si → acc.1 !! j = Some sj → deadline si = deadline sj → i = j
}.

(** One day's blocks in a window from [start_time] to [end_time] with breaks of
    [break_us] microseconds: each block lies in the window and does not end
    before it starts, and a later block starts no earlier than an earlier one
    ends plus the break. *)
Definition apart (break_us : Z) (b1 b2 : block) : Prop :=
  blk_end b1 + break_us ≤ blk_start b2.

Definition in_window (start_time end_time : Z) (b : block) : Prop :=
  start_time ≤ blk_start b ∧ blk_start b ≤ blk_end b ∧ blk_end b ≤ end_time.

Record placed {H} (start_time end_time break_us : Z) (st : alloc H) : Prop := {
  placed_apart : StronglySorted (apart break_us) (day_schedule st);
  placed_window : Forall (in_window start_time end_time) (day_schedule st);
  placed_before : Forall (λ b, blk_end b + break_us ≤ current_time st) (day_schedule st);
  placed_start : start_time ≤ current_time st
}.

(** Every block so far is labelled with one of [names]. *)
Definition labelled {H} (names : list string) (st : alloc H) : Prop :=
  Forall (λ b, blk_subject b ∈ names) (day_schedule st).

(** The keys of [hours_left] are the names of the day's order. *)
Definition covers {H} (order : list string) (st : alloc H) : Prop :=
  ∀ n, n ∈ order ↔ is_Some (hours_left st !! n).

(** Passes of the loop that suffice for a window of [window] microseconds when
    every block is followed by a break of [break_us] microseconds. *)
Definition enough_passes (window break_us : Z) : nat :=
  S (S (Z.to_nat (window / break_us))).

(** What the loop of [rearrange_schedule] has done to the visited objects:
    every date from an object's old deadline up to its new one is in [used],
    the new deadline is less than [length subs] days after the old one, and
    [used] holds no more dates than there are visited objects. *)
Record packed (subs : list subject) (P : gset nat) (acc : list subject * gset Z)
  : Prop := {
  packed_range : ∀ i, i ∈ P → (i < length subs)%nat;
  packed_size : (size acc.2 ≤ size P)%nat;
  packed_gaps : ∀ i s s', i ∈ P → subs !! i = Some s → acc.1 !! i = Some s' →
    ∀ x, deadline s ≤ x ≤ deadline s' → x ∈ acc.2;
  packed_shift : ∀ i s s', i ∈ P → subs !! i = Some s → acc.1 !! i = Some s' →
    deadline s' < deadline s + Z.of_nat (length subs)
}.

(** The order in which [sorted] puts two references: by deadline, and by
    position in the list for equal deadlines. *)
Definition due_before (subs : list subject) (i j : nat) : Prop :=
  deadline_at subs i < deadline_at subs j ∨
  (deadline_at subs i = deadline_at subs j ∧ (i < j)%nat).

(** Every date in [used] is the end of a run of used dates that starts at or
    before [key]. *)
Definition reachable (used : gset Z) (key : Z) : Prop :=
  ∀ u, u ∈ used → ∃ k, k ≤ key ∧ ∀ z, k ≤ z ≤ u → z ∈ used.

(** The subjects due on the day [d], in the order of the list. *)
Definition due_on (subs : list subject) (d : Z) : list subject :=
  filter (λ s, deadline s = d) subs.

(** One day's blocks follow one another: the first starts at [start_time],
    each next one starts [break_us] microseconds after the one before it ends,
    and the clock stands [break_us] after the end of the last one. *)
Record chained {H} (start_time break_us : Z) (st : alloc H) : Prop := {
  chained_first : ∀ b, day_schedule st !! 0%nat = Some b → blk_start b = start_time;
  chained_next : ∀ i b b', day_schedule st !! i = Some b → day_schedule st !! S i = Some b' →
    blk_start b' = blk_end b + break_us;
  chained_clock :
    current_time st = from_option (λ b, blk_end b + break_us) start_time
                        (last (day_schedule st))
}.

(** No block so far is longer than [block_hours]. *)
Definition short_blocks {H} `{HourOps H} (block_hours : H) (st : alloc H) : Prop :=
  Forall (λ b, blk_end b - blk_start b ≤ timedelta_hours block_hours) (day_schedule st).

(** The subjects whose hours were not positive at the start of the day have
    their hours untouched and no block. *)
Definition idle {H} `{HourOps H} (hours : gmap string H) (st : alloc H) : Prop :=
  ∀ n h, hours !! n = Some h → h_le0 h = true →
    hours_left st !! n = Some h ∧ Forall (λ b, blk_subject b ≠ n) (day_schedule st).

(** * Part II: properties *)

(** * Properties of the clash resolver *)

Section Sorted.
Context {A : Type} (key : A → Z).
Local Abbreviation key_le := (key_le key).

Lemma insert_by_perm x l : insert_by key x l ≡ₚ x :: l.
Proof.
  induction l as [|y l IH]; simpl; [done|].
  destruct (key x <=? key y); [done|].
  rewrite IH. apply Permutation_swap.
Qed.

Lemma sorted_perm l : sorted key l ≡ₚ l.
Proof.
  induction l as [|x l IH]; simpl; [done|].
  unfold sorted in *. simpl. rewrite insert_by_perm. by rewrite IH.
Qed.

Lemma insert_by_sorted x l :
  StronglySorted key_le l → StronglySorted key_le (insert_by key x l).
Proof.
  induction 1 as [|y l Hs IH Hall]; simpl.
  - repeat constructor.
  - destruct (Z.leb_spec (key x) (key y)) as [Hle|Hlt].
    + constructor; [by constructor|].
      constructor; [done|].
      eapply Forall_impl; [exact Hall|]. unfold key_le. intros; simpl in *. lia.
    + constructor; [done|].
      rewrite insert_by_perm. constructor; [unfold key_le; lia | done].
Qed.

Lemma sorted_sorted l : StronglySorted key_le (sorted key l).
Proof.
  induction l as [|x l IH]; [constructor|].
  apply insert_by_sorted, IH.
Qed.

(** Stability: elements with one key keep their original relative order. *)
Lemma insert_by_filter k x l :
  StronglySorted key_le l →
  filter (λ y, key y = k) (insert_by key x l) = filter (λ y, key y = k) (x :: l).
Proof.
  induction 1 as [|y l Hs IH Hall]; simpl; [done|].
  destruct (Z.leb_spec (key x) (key y)) as [Hle|Hlt]; [done|].
  rewrite !filter_cons in *.
  destruct (decide (key y = k)) as [Hy|Hy]; destruct (decide (key x = k)) as [Hx|Hx];
    rewrite ?IH; try done.
  (* both keys equal [k]: impossible, since [key y < key x] *)
  lia.
Qed.

Lemma sorted_stable k l :
  filter (λ y, key y = k) (sorted key l) = filter (λ y, key y = k) l.
Proof.
  induction l as [|x l IH]; [done|].
  unfold sorted in *. simpl.
  rewrite insert_by_filter by apply sorted_sorted.
  by rewrite !filter_cons, IH.
Qed.
End Sorted.

(** ** The search for a free date *)

Section NextFree.
Implicit Types (used : gset Z) (d : Z).


Lemma later_dates_shrink used d :
  d ∈ used → ahead used (d + 1) ⊂ ahead used d.
Proof.
  intros Hd. unfold ahead. split.
  - intros x. rewrite !elem_of_filter. intros [? ?]. split; [lia|done].
  - intros Hsub. specialize (Hsub d). rewrite !elem_of_filter in Hsub.
    destruct Hsub as [? _]; [split; [lia|done]|lia].
Qed.

Lemma next_free_loop_spec fuel used d :
  (size (ahead used d) < fuel)%nat →
  (next_free_loop fuel used d ∉ used) ∧ d ≤ next_free_loop fuel used d.
Proof.
  revert d. induction fuel as [|fuel IH]; intros d Hfuel; [lia|].
  simpl. destruct (decide (d ∈ used)) as [Hin|Hout]; [|split; [done|lia]].
  pose proof (subset_size _ _ (later_dates_shrink used d Hin)) as Hlt.
  destruct (IH (d + 1)) as [? ?]; [lia|]. split; [done|lia].
Qed.

Lemma next_free_loop_fuel fuel1 fuel2 used d :
  (size (ahead used d) < fuel1)%nat →
  (size (ahead used d) < fuel2)%nat →
  next_free_loop fuel1 used d = next_free_loop fuel2 used d.
Proof.
  revert fuel2 d. induction fuel1 as [|fuel1 IH]; intros [|fuel2] d H1 H2; try lia.
  simpl. destruct (decide (d ∈ used)) as [Hin|Hout]; [|done].
  pose proof (subset_size _ _ (later_dates_shrink used d Hin)) as Hlt.
  apply IH; lia.
Qed.

Lemma enough_fuel used d :
  (size (ahead used d) < S (size used))%nat.
Proof.
  assert (ahead used d ⊆ used) as Hsub.
  { intros x. unfold ahead. rewrite elem_of_filter. tauto. }
  apply subseteq_size in Hsub. lia.
Qed.

Lemma next_free_not_used used d : next_free used d ∉ used.
Proof. apply next_free_loop_spec, enough_fuel. Qed.

Lemma next_free_ge used d : d ≤ next_free used d.
Proof. apply next_free_loop_spec, enough_fuel. Qed.

Lemma next_free_id used d : d ∉ used → next_free used d = d.
Proof. intros Hd. unfold next_free. simpl. by rewrite decide_False. Qed.

(** The equation of the [while] loop: the bound on the unfoldings is never
    the reason the search stops. *)
Lemma next_free_unfold used d :
  next_free used d = if decide (d ∈ used) then next_free used (d + 1) else d.
Proof.
  unfold next_free at 1. simpl.
  destruct (decide (d ∈ used)) as [Hin|Hout]; [|done].
  apply next_free_loop_fuel; [|apply enough_fuel].
  pose proof (subset_size _ _ (later_dates_shrink used d Hin)).
  pose proof (enough_fuel used d). lia.
Qed.
End NextFree.

(** ** The loop of [rearrange_schedule] *)

Lemma resolved_init subs : resolved subs ∅ (subs, ∅).
Proof.
  split; simpl.
  - done.
  - intros i s' Hi. exists s'. repeat split; first [done|lia].
  - intros d. split; [set_solver|]. intros (i & ? & Hi & _). set_solver.
  - intros i j ? ? Hi. set_solver.
Qed.

(** Membership in the set of visited references after one more visit. *)
Local Ltac visited :=
  rewrite ?elem_of_union, ?elem_of_singleton in *; first [tauto | intuition congruence].

Lemma resolved_visit subs P acc i :
  resolved subs P acc → i ∉ P → resolved subs ({[i]} ∪ P) (visit acc i).
Proof.
  intros [Hlen Hframe Hused Hdist] HiP. unfold visit.
  destruct (acc.1 !! i) as [s|] eqn:Hs.
  - (* the object at [i] receives the date [d] *)
    pose proof (next_free_not_used acc.2 (deadline s)) as Hfree.
    pose proof (next_free_ge acc.2 (deadline s)) as Hge.
    cbv zeta. generalize dependent (next_free acc.2 (deadline s)). intros d Hfree Hge.
    assert (i < length acc.1)%nat as Hlt by (by eapply lookup_lt_Some).
    split; simpl.
    + by rewrite length_insert.
    + intros j s' Hj. destruct (decide (j = i)) as [->|Hne].
      * rewrite list_lookup_insert_eq in Hj by done. injection Hj as <-.
        destruct (Hframe i s Hs) as (s0 & ? & ? & ? & ? & ? & _).
        exists s0. simpl. repeat split; try done; [lia|visited].
      * rewrite list_lookup_insert_ne in Hj by done.
        destruct (Hframe j s' Hj) as (s0 & ? & ? & ? & ? & ? & Hsame).
        exists s0. repeat split; try done. intros ?. apply Hsame. visited.
    + intros d'. rewrite elem_of_union, elem_of_singleton, Hused. split.
      * intros [->|(j & s' & Hj & Hl & Hd)].
        -- exists i, (set_deadline s d). rewrite list_lookup_insert_eq by done.
           split; [visited|done].
        -- exists j, s'. rewrite list_lookup_insert_ne by (intros ->; done).
           split; [visited|done].
      * intros (j & s' & Hj & Hl & Hd). destruct (decide (j = i)) as [->|Hne].
        -- rewrite list_lookup_insert_eq in Hl by done. injection Hl as <-.
           by left.
        -- rewrite list_lookup_insert_ne in Hl by done.
           right. exists j, s'. split; [visited|done].
    + intros j k sj sk Hj Hk Hlj Hlk Heq.
      destruct (decide (j = i)) as [->|Hji]; destruct (decide (k = i)) as [->|Hki];
        try done.
      * rewrite list_lookup_insert_eq in Hlj by done. injection Hlj as <-.
        rewrite list_lookup_insert_ne in Hlk by done.
        exfalso. apply Hfree, Hused. exists k, sk.
        split; [visited|]. split; [done|]. simpl in Heq. done.
      * rewrite list_lookup_insert_eq in Hlk by done. injection Hlk as <-.
        rewrite list_lookup_insert_ne in Hlj by done.
        exfalso. apply Hfree, Hused. exists j, sj.
        split; [visited|done].
      * rewrite list_lookup_insert_ne in Hlj, Hlk by done.
        apply (Hdist j k sj sk); try done; visited.
  - (* no object at [i]: nothing happens *)
    assert (∀ j s', j ∈ {[i]} ∪ P → acc.1 !! j = Some s' → j ∈ P) as Hin.
    { intros j s' Hj Hl. apply elem_of_union in Hj as [Hj|Hj]; [|done].
      apply elem_of_singleton in Hj as ->. congruence. }
    split; try done.
    + intros j s' Hj. destruct (Hframe j s' Hj) as (s0 & ? & ? & ? & ? & ? & Hsame).
      exists s0. repeat split; try done. intros ?. apply Hsame. visited.
    + intros d'. rewrite Hused. split.
      * intros (j & s' & ? & ? & ?). exists j, s'. split; [visited|done].
      * intros (j & s' & Hj & Hl & ?). exists j, s'. split; [by eapply Hin|done].
    + intros j k sj sk Hj Hk Hlj Hlk Heq.
      apply (Hdist j k sj sk); try done; by eapply Hin.
Qed.

Lemma resolved_fold subs order :
  ∀ P acc, resolved subs P acc → NoDup order → (∀ i, i ∈ order → i ∉ P) →
    resolved subs (list_to_set order ∪ P) (foldl visit acc order).
Proof.
  induction order as [|i order IH]; intros P acc Hres Hnd Hfresh; simpl.
  - by rewrite (left_id_L ∅ (∪)).
  - apply NoDup_cons in Hnd as [Hi Hnd].
    replace ({[i]} ∪ list_to_set order ∪ P) with (list_to_set order ∪ ({[i]} ∪ P) : gset nat)
      by (apply set_eq; intros j; visited).
    apply IH; [|done|].
    + apply resolved_visit; [done|]. apply Hfresh. by left.
    + intros j Hj. apply not_elem_of_union. split.
      * apply not_elem_of_singleton. by intros ->.
      * apply Hfresh. by right.
Qed.

Lemma visit_order_perm subs : visit_order subs ≡ₚ seq 0 (length subs).
Proof. apply sorted_perm. Qed.

Lemma rearrange_resolved subs :
  resolved subs (list_to_set (seq 0 (length subs)))
    (foldl visit (subs, ∅) (visit_order subs)).
Proof.
  rewrite <- (list_to_set_perm_L _ _ (visit_order_perm subs)).
  rewrite <- (right_id_L ∅ (∪) (list_to_set (visit_order subs))).
  apply resolved_fold.
  - apply resolved_init.
  - rewrite visit_order_perm. apply NoDup_seq.
  - set_solver.
Qed.

Lemma set_deadline_same s : set_deadline s (deadline s) = s.
Proof. by destruct s. Qed.

(** Without a clash the loop changes nothing. *)
Lemma visit_all_noop subs order :
  NoDup (deadline <$> subs) →
  ∀ (P : gset nat) used,
    (∀ d, d ∈ used → ∃ i s, i ∈ P ∧ subs !! i = Some s ∧ deadline s = d) →
    (∀ i, i ∈ order → i ∉ P) → NoDup order →
    (foldl visit (subs, used) order).1 = subs.
Proof.
  intros Hnd. induction order as [|i order IH]; intros P used Hused Hfresh Hord; [done|].
  apply NoDup_cons in Hord as [Hi Hord]. simpl.
  assert (i ∉ P) as HiP by (apply Hfresh; by left).
  unfold visit at 2. simpl. destruct (subs !! i) as [s|] eqn:Hs.
  - assert (deadline s ∉ used) as Hfree.
    { intros (j & sj & Hj & Hlj & Hd)%Hused.
      assert (j = i) as ->; [|done].
      eapply NoDup_alt; [exact Hnd| |].
      - rewrite list_lookup_fmap, Hlj. done.
      - rewrite list_lookup_fmap, Hs. simpl. by rewrite Hd. }
    rewrite next_free_id, set_deadline_same, list_insert_id by done.
    apply (IH ({[i]} ∪ P)); [| |done].
    + intros d [->%elem_of_singleton|Hd]%elem_of_union.
      * exists i, s. split; [visited|done].
      * destruct (Hused d Hd) as (j & sj & ? & ? & ?). exists j, sj. split; [visited|done].
    + intros j Hj. apply not_elem_of_union. split.
      * apply not_elem_of_singleton. by intros ->.
      * apply Hfresh. by right.
  - apply (IH P used); [done| |done]. intros j Hj. apply Hfresh. by right.
Qed.

Lemma rearrange_schedule_noop subs :
  NoDup (deadline <$> subs) → rearrange_schedule subs = subs.
Proof.
  intros Hnd. unfold rearrange_schedule.
  apply (visit_all_noop subs _ Hnd ∅).
  - intros d Hd. by apply not_elem_of_empty in Hd.
  - intros i _. apply not_elem_of_empty.
  - rewrite visit_order_perm. apply NoDup_seq.
Qed.

(** The deadlines after [rearrange_schedule] are pairwise distinct. *)
Lemma rearrange_schedule_NoDup subs : NoDup (deadline <$> rearrange_schedule subs).
Proof.
  destruct (rearrange_resolved subs) as [Hlen _ _ Hdist].
  apply NoDup_alt. intros i j d. rewrite !list_lookup_fmap. unfold rearrange_schedule.
  destruct (_ !! i) as [si|] eqn:Hi; [|done].
  destruct (_ !! j) as [sj|] eqn:Hj; [|done].
  simpl. intros [= Hdi] [= Hdj]. apply (Hdist i j si sj); try done.
  - apply elem_of_list_to_set, elem_of_seq. apply lookup_lt_Some in Hi. lia.
  - apply elem_of_list_to_set, elem_of_seq. apply lookup_lt_Some in Hj. lia.
  - congruence.
Qed.

Lemma rearrange_schedule_length subs :
  length (rearrange_schedule subs) = length subs.
Proof. by destruct (rearrange_resolved subs). Qed.

(** Object by object: only the deadline can differ, and it does not decrease. *)
Lemma rearrange_schedule_lookup subs i s' :
  rearrange_schedule subs !! i = Some s' →
  ∃ s, subs !! i = Some s ∧ name s' = name s ∧ difficulty s' = difficulty s ∧
       marks s' = marks s ∧ deadline s ≤ deadline s'.
Proof.
  intros Hi. destruct (rearrange_resolved subs) as [_ Hframe _ _].
  destruct (Hframe i s' Hi) as (s & ? & ? & ? & ? & ? & _). by exists s.
Qed.

Lemma rearrange_schedule_field {B} (f : subject → B) subs :
  (∀ s d, f (set_deadline s d) = f s) →
  (∀ s s', name s' = name s → difficulty s' = difficulty s → marks s' = marks s →
           f (set_deadline s' 0) = f (set_deadline s 0)) →
  f <$> rearrange_schedule subs = f <$> subs.
Proof.
  intros Hf Hcongr. apply list_eq. intros i. rewrite !list_lookup_fmap.
  destruct (rearrange_schedule subs !! i) as [s'|] eqn:Hi.
  - destruct (rearrange_schedule_lookup subs i s' Hi) as (s & -> & ? & ? & ? & _).
    simpl. f_equal. rewrite <- (Hf s' 0), <- (Hf s 0). by apply Hcongr.
  - apply lookup_ge_None in Hi. rewrite rearrange_schedule_length in Hi.
    apply lookup_ge_None in Hi. by rewrite Hi.
Qed.

(** [detect_clashes] tells exactly whether two deadlines coincide. *)
Lemma size_dates_le (l : list Z) : (size (list_to_set l : gset Z) ≤ length l)%nat.
Proof.
  induction l as [|x l IH]; [done|].
  cbn [length list_to_set foldr]. rewrite size_union_alt. rewrite size_singleton.
  pose proof (subseteq_size (list_to_set l ∖ {[x]}) (list_to_set l : gset Z)) as Hle.
  assert ((list_to_set l ∖ {[x]} : gset Z) ⊆ list_to_set l) as Hsub.
  { intros y. rewrite elem_of_difference. tauto. }
  specialize (Hle Hsub). lia.
Qed.

Lemma size_dates_NoDup (l : list Z) :
  size (list_to_set l : gset Z) = length l ↔ NoDup l.
Proof.
  split; [|apply size_list_to_set].
  induction l as [|x l IH]; [constructor|].
  cbn [length list_to_set foldr]. intros Hsize.
  destruct (decide (x ∈ l)) as [Hin|Hout].
  - exfalso. pose proof (size_dates_le l).
    assert ({[x]} ∪ list_to_set l = (list_to_set l : gset Z)) as Heq.
    { apply set_eq. intros y. rewrite elem_of_union, elem_of_singleton, elem_of_list_to_set.
      split; [intros [->|?]; done|tauto]. }
    rewrite Heq in Hsize. lia.
  - constructor; [done|]. apply IH.
    rewrite size_union, size_singleton in Hsize; [lia|].
    intros y ->%elem_of_singleton. by rewrite elem_of_list_to_set.
Qed.

Lemma detect_clashes_false subs :
  detect_clashes subs = false ↔ NoDup (deadline <$> subs).
Proof.
  unfold detect_clashes. rewrite negb_false_iff, Nat.eqb_eq, <- size_dates_NoDup.
  split; intros; congruence.
Qed.

(** ** The clash resolver: the claims *)

Example rearrange_clash_example :
  deadline <$> rearrange_schedule clash_example = [739047; 739049; 739048].
Proof. vm_compute. reflexivity. Qed.




(** C10. [rearrange_schedule] changes deadlines only: the list keeps its
    length and its order, and position by position the name, the difficulty
    and the marks are what they were. *)
Theorem rearrange_schedule_only_deadlines (subs : list subject) :
  length (rearrange_schedule subs) = length subs ∧
  name <$> rearrange_schedule subs = name <$> subs ∧
  difficulty <$> rearrange_schedule subs = difficulty <$> subs ∧
  marks <$> rearrange_schedule subs = marks <$> subs.
Proof.
  split; [apply rearrange_schedule_length|].
  repeat split; apply rearrange_schedule_field; simpl; auto.
Qed.

(** ** The plan *)

Section PlanFacts.
Variable predict_study_hours : Z → Z → Z.
Variable today : Z.

Local Abbreviation entry := (entry_of predict_study_hours today).
Local Abbreviation fill :=
  (foldl (λ (schedule : gmap string plan_entry) s, <[name s := entry s]> schedule)).

(** The entry under a name is the one written last, for the last subject of
    that name. *)
Lemma fill_lookup subs (m : gmap string plan_entry) nm :
  fill m subs !! nm =
    match last (filter (λ s, name s = nm) subs) with
    | Some s => Some (entry s)
    | None => m !! nm
    end.
Proof.
  induction subs as [|s subs IH] using rev_ind; [done|].
  rewrite foldl_app, filter_app. simpl.
  rewrite filter_cons, filter_nil. destruct (decide (name s = nm)) as [<-|Hne].
  - by rewrite last_snoc, lookup_insert_eq.
  - by rewrite app_nil_r, lookup_insert_ne, IH.
Qed.

Lemma days_left_entry s :
  days_left (entry s) = Z.max 1 (deadline s - today) ∧ 1 ≤ days_left (entry s).
Proof. simpl. unfold days_between. lia. Qed.

Lemma generate_plan_lookup subs plan nm :
  generate_plan predict_study_hours today subs = Some plan →
  plan !! nm = entry <$> last (filter (λ s, name s = nm) subs).
Proof.
  destruct subs as [|s0 subs]; [done|]. intros [= <-].
  change (fill ∅ (s0 :: subs) !! nm = entry <$> last (filter (λ s, name s = nm) (s0 :: subs))).
  rewrite fill_lookup. by destruct (last _).
Qed.
End PlanFacts.

(** C7. For a non-empty store and any value of [today], [generate_plan]
    returns a plan; the entry it writes for a subject has
    [days_left = max(1, deadline - today)], so at least 1 also for a deadline
    today or in the past; every subject finds an entry under its name, every
    entry of the plan is the one written for the last subject of that name,
    and every entry has [days_left] at least 1. *)
Theorem generate_plan_days_left (predict_study_hours : Z → Z → Z) (today : Z)
    (subs : list subject) :
  subs ≠ [] →
  ∃ plan, generate_plan predict_study_hours today subs = Some plan ∧
    (∀ s, s ∈ subs →
       days_left (entry_of predict_study_hours today s) = Z.max 1 (deadline s - today) ∧
       is_Some (plan !! name s)) ∧
    (∀ nm, plan !! nm =
       entry_of predict_study_hours today <$> last (filter (λ s, name s = nm) subs)) ∧
    (∀ nm e, plan !! nm = Some e → 1 ≤ days_left e).
Proof.
  intros Hne.
  destruct (generate_plan predict_study_hours today subs) as [plan|] eqn:Hplan;
    [|by destruct subs].
  exists plan. split; [done|].
  pose proof (λ nm, generate_plan_lookup _ _ _ _ nm Hplan) as Hlook.
  split; [|split].
  - intros s Hs. split; [apply days_left_entry|]. rewrite Hlook.
    destruct (last (filter (λ s', name s' = name s) subs)) as [s'|] eqn:Hlast; [by eexists|].
    apply last_None in Hlast.
    assert (s ∈ filter (λ s', name s' = name s) subs) as Hin
      by (by apply list_elem_of_filter).
    rewrite Hlast in Hin. by apply elem_of_nil in Hin.
  - apply Hlook.
  - intros nm e. rewrite Hlook. destruct (last _) as [s|]; [|done].
    intros [= <-]. apply days_left_entry.
Qed.

Lemma generate_plan_days_left_witness :
  clash_example ≠ [] ∧
  ∃ plan, generate_plan (λ _ _, 2) 739050 clash_example = Some plan ∧
    (∀ s, s ∈ clash_example →
       days_left (entry_of (λ _ _, 2) 739050 s) = Z.max 1 (deadline s - 739050) ∧
       is_Some (plan !! name s)) ∧
    (∀ nm, plan !! nm =
       entry_of (λ _ _, 2) 739050 <$> last (filter (λ s, name s = nm) clash_example)) ∧
    (∀ nm e, plan !! nm = Some e → 1 ≤ days_left e).
Proof.
  split; [discriminate|].
  apply (generate_plan_days_left (λ _ _, 2) 739050 clash_example). discriminate.
Defined.

(** ** The commands *)

Lemma handle_clashes_lookup choice st i s' :
  subjects (handle_clashes choice st) !! i = Some s' →
  ∃ s, subjects st !! i = Some s ∧ name s' = name s ∧
       difficulty s' = difficulty s ∧ marks s' = marks s.
Proof.
  unfold handle_clashes. repeat case_decide; simpl; try by eauto.
  intros (s & ? & ? & ? & ? & _)%rearrange_schedule_lookup. by exists s.
Qed.

Lemma handle_clashes_length choice st :
  length (subjects (handle_clashes choice st)) = length (subjects st).
Proof.
  unfold handle_clashes. repeat case_decide; simpl; try done.
  apply rearrange_schedule_length.
Qed.

Section CommandFacts.
Variable str_split : string → list string.
Variable str_lower : string → string.
Variable strptime_date : string → option Z.
Variable int_of_str : string → option Z.
Variable difficulty_map : gmap string Z.

Local Abbreviation add :=
  (add_subject_command str_split str_lower strptime_date int_of_str difficulty_map).
Local Abbreviation reschedule := (reschedule_subject str_split strptime_date).

(** An error report of [add_subject_command] comes with the store it was given. *)
Lemma add_failure_unchanged cmd choice st r st' :
  add cmd choice st = (r, st') → failure r → st' = st.
Proof.
  unfold add_subject_command.
  destruct (str_split cmd) as [|? [|? [|nm [|ds [|dl [|ms [|? ?]]]]]]];
    try (intros [= <- <-]; done).
  destruct (difficulty_map !! str_lower ds); [|intros [= <- <-]; done].
  destruct (parse_date strptime_date dl); [|intros [= <- <-]; done].
  destruct (int_of_str ms); [|intros [= <- <-]; done].
  intros [= <- <-]. done.
Qed.

Lemma add_fails_report cmd choice st :
  add_fails str_split str_lower strptime_date int_of_str difficulty_map cmd →
  ∃ r, add cmd choice st = (r, st) ∧ failure r.
Proof.
  unfold add_fails, add_subject_command.
  destruct (str_split cmd) as [|? [|? [|nm [|ds [|dl [|ms [|? ?]]]]]]];
    try (intros _; by eexists).
  destruct (difficulty_map !! str_lower ds); [|intros _; by eexists].
  destruct (parse_date strptime_date dl); [|intros _; by eexists].
  destruct (int_of_str ms); [|intros _; by eexists].
  intros [?|[?|?]]; done.
Qed.

Lemma reschedule_failure_unchanged cmd st r st' :
  reschedule cmd st = (r, st') → failure r → st' = st.
Proof.
  unfold reschedule_subject.
  destruct (str_split cmd) as [|? [|nm [|ds [|? ?]]]]; try (intros [= <- <-]; done).
  destruct (parse_date strptime_date ds); [|intros [= <- <-]; done].
  destruct (list_find _ _) as [[i sub]|]; intros [= <- <-]; done.
Qed.

Lemma reschedule_fails_report cmd st :
  reschedule_fails str_split strptime_date cmd st →
  ∃ r, reschedule cmd st = (r, st) ∧ failure r.
Proof.
  unfold reschedule_fails, reschedule_subject.
  destruct (str_split cmd) as [|? [|nm [|ds [|? ?]]]]; try (intros _; by eexists).
  destruct (parse_date strptime_date ds); [|intros _; by eexists].
  intros [?|Hnone]; [done|].
  destruct (list_find _ _) as [[i sub]|] eqn:Hfind; [|by eexists].
  apply list_find_Some in Hfind as (Hi & Hnm & _).
  exfalso. rewrite Forall_lookup in Hnone. by eapply Hnone.
Qed.
End CommandFacts.

(** C9. On every error path the store is left as it was.  When
    [add_subject_command] fails (argument count, difficulty token, deadline,
    marks) or [reschedule_subject] fails (argument count, date, no subject of
    that name), the command reports an error and returns the store unchanged,
    in memory and on disk; conversely, whatever error a command reports, the
    store it returns is the one it was given. *)
Theorem failed_commands_leave_store
    (str_split : string → list string) (str_lower : string → string)
    (strptime_date int_of_str : string → option Z) (difficulty_map : gmap string Z)
    (cmd choice : string) (st : store) :
  (add_fails str_split str_lower strptime_date int_of_str difficulty_map cmd →
   ∃ r, add_subject_command str_split str_lower strptime_date int_of_str difficulty_map
          cmd choice st = (r, st) ∧ failure r) ∧
  (reschedule_fails str_split strptime_date cmd st →
   ∃ r, reschedule_subject str_split strptime_date cmd st = (r, st) ∧ failure r) ∧
  (∀ r st',
     add_subject_command str_split str_lower strptime_date int_of_str difficulty_map
       cmd choice st = (r, st') → failure r → st' = st) ∧
  (∀ r st',
     reschedule_subject str_split strptime_date cmd st = (r, st') → failure r → st' = st).
Proof.
  split; [apply add_fails_report|].
  split; [apply reschedule_fails_report|].
  split; intros r st'; [apply add_failure_unchanged|apply reschedule_failure_unchanged].
Qed.

Lemma failed_commands_leave_store_witness :
  (∃ r, add_ascii "add subject Math hard 2030-01-01 50" "yes" clash_store
        = (r, clash_store) ∧ failure r) ∧
  (∃ r, add_ascii "add subject Math low 2030-02-30 50" "yes" clash_store
        = (r, clash_store) ∧ failure r) ∧
  (∃ r, add_ascii "add subject Math low 2030-01-01 fifty" "yes" clash_store
        = (r, clash_store) ∧ failure r) ∧
  (∃ r, add_ascii "add subject Math low 2030-01-01" "yes" clash_store
        = (r, clash_store) ∧ failure r) ∧
  (∃ r, reschedule_ascii "reschedule Physics 10/06/2024" clash_store
        = (r, clash_store) ∧ failure r) ∧
  (∃ r, reschedule_ascii "reschedule Chemistry 2030-01-01" clash_store
        = (r, clash_store) ∧ failure r).
Proof.
  repeat split.
  - apply (failed_commands_leave_store py_split py_lower py_strptime_date py_int
             DEFAULT_DIFF "add subject Math hard 2030-01-01 50" "yes" clash_store).
    vm_compute. left. reflexivity.
  - apply (failed_commands_leave_store py_split py_lower py_strptime_date py_int
             DEFAULT_DIFF "add subject Math low 2030-02-30 50" "yes" clash_store).
    vm_compute. right. left. reflexivity.
  - apply (failed_commands_leave_store py_split py_lower py_strptime_date py_int
             DEFAULT_DIFF "add subject Math low 2030-01-01 fifty" "yes" clash_store).
    vm_compute. right. right. reflexivity.
  - apply (failed_commands_leave_store py_split py_lower py_strptime_date py_int
             DEFAULT_DIFF "add subject Math low 2030-01-01" "yes" clash_store).
    vm_compute. exact I.
  - apply (failed_commands_leave_store py_split py_lower py_strptime_date py_int
             DEFAULT_DIFF "reschedule Physics 10/06/2024" "" clash_store).
    vm_compute. left. reflexivity.
  - apply (failed_commands_leave_store py_split py_lower py_strptime_date py_int
             DEFAULT_DIFF "reschedule Chemistry 2030-01-01" "" clash_store).
    right. repeat constructor; discriminate.
Defined.

(** ** The marks of an added subject *)

(** C8, as stated, fails: the command line below is accepted and appends a
    subject whose marks are 150. *)
Lemma add_marks_out_of_range :
  ∃ st', add_ascii "add subject Math low 2030-01-01 150" "" empty_store
           = (Added "Math", st') ∧
         ∃ s, subjects st' !! length (subjects empty_store) = Some s ∧
              ¬ (0 ≤ marks s ≤ 100).
Proof.
  eexists. split; [vm_compute; reflexivity|].
  eexists. split; [reflexivity|]. simpl. lia.
Qed.

(** C8, amended.  A subject that [add_subject_command] appends has as marks
    the integer that [int] reads from the marks token, whatever its value:
    the command applies no range check.  Its name is the name token and its
    difficulty the entry of the difficulty table; the clash handling that may
    follow leaves all three as they are. *)
Theorem add_appends_parsed_marks
    (str_split : string → list string) (str_lower : string → string)
    (strptime_date int_of_str : string → option Z) (difficulty_map : gmap string Z)
    (cmd choice : string) (st st' : store) (nm : string) :
  add_subject_command str_split str_lower strptime_date int_of_str difficulty_map
    cmd choice st = (Added nm, st') →
  ∃ a b diff_str deadline_str marks_str m s,
    str_split cmd = [a; b; nm; diff_str; deadline_str; marks_str] ∧
    int_of_str marks_str = Some m ∧
    length (subjects st') = S (length (subjects st)) ∧
    subjects st' !! length (subjects st) = Some s ∧
    marks s = m ∧ name s = nm ∧
    difficulty_map !! str_lower diff_str = Some (difficulty s).
Proof.
  unfold add_subject_command.
  destruct (str_split cmd) as [|a [|b [|nm' [|ds [|dl [|ms [|? ?]]]]]]]; try done.
  destruct (difficulty_map !! str_lower ds) as [diff|] eqn:Hdiff; [|done].
  destruct (parse_date strptime_date dl) as [d|]; [|done].
  destruct (int_of_str ms) as [m|] eqn:Hm; [|done].
  intros [= -> <-].
  set (new := {| name := nm; difficulty := diff; deadline := d; marks := m |}).
  set (st1 := save_subjects {| subjects := subjects st ++ [new]; saved := saved st |}).
  assert (subjects st1 !! length (subjects st) = Some new) as Hnew.
  { simpl. by rewrite lookup_app_r, Nat.sub_diag by lia. }
  assert (length (subjects st1) = S (length (subjects st))) as Hlen.
  { simpl. rewrite length_app. simpl. lia. }
  destruct (detect_clashes (subjects st ++ [new])).
  - assert (is_Some (subjects (handle_clashes choice st1) !! length (subjects st)))
      as [s Hs].
    { apply lookup_lt_is_Some. rewrite handle_clashes_length. lia. }
    destruct (handle_clashes_lookup _ _ _ _ Hs) as (s0 & Hs0 & Hname & Hdiffs & Hmarks).
    rewrite Hnew in Hs0. injection Hs0 as <-.
    exists a, b, ds, dl, ms, m, s.
    rewrite handle_clashes_length. repeat split; try done. by rewrite Hdiffs.
  - exists a, b, ds, dl, ms, m, new. done.
Qed.

Lemma add_appends_parsed_marks_witness :
  ∃ a b diff_str deadline_str marks_str m s,
    py_split "add subject Math low 2024-06-10 150" =
      [a; b; "Math"; diff_str; deadline_str; marks_str] ∧
    py_int marks_str = Some m ∧
    length (subjects (add_ascii "add subject Math low 2024-06-10 150" "yes" clash_store).2)
      = S (length (subjects clash_store)) ∧
    subjects (add_ascii "add subject Math low 2024-06-10 150" "yes" clash_store).2
      !! length (subjects clash_store) = Some s ∧
    marks s = m ∧ name s = "Math" ∧
    DEFAULT_DIFF !! py_lower diff_str = Some (difficulty s).
Proof.
  apply (add_appends_parsed_marks py_split py_lower py_strptime_date py_int DEFAULT_DIFF
           "add subject Math low 2024-06-10 150" "yes" clash_store).
  vm_compute. reflexivity.
Defined.

(** ** The allocation loop: more fuel changes no result *)

Section AllocationFuel.
Context {H : Type} `{HourOps H}.
Variable block_hours : H.
Variable break_minutes : Z.
Variable end_time : Z.

Local Abbreviation loop := (while_loop block_hours break_minutes end_time).
Local Abbreviation pass := (for_pass block_hours break_minutes end_time).

Lemma while_loop_fuel fuel order : ∀ st r fuel',
  loop fuel order st = r → r ≠ OutOfFuel → (fuel ≤ fuel')%nat →
  loop fuel' order st = r.
Proof.
  induction fuel as [|fuel IH]; intros st r fuel' Hr Hne Hle; simpl in Hr; [congruence|].
  destruct fuel' as [|fuel']; [lia|]. simpl.
  destruct (fits _ _ _ && any_hours _); [|done].
  destruct (pass order st) as [st1| |]; simpl in *; [|done|done].
  destruct (all_done (hours_left st1)); [done|].
  apply IH; [done|done|lia].
Qed.
End AllocationFuel.

Section TimetableFuel.
Context {H : Type} `{HourOps H}.
Variable subjects : list subject.
Variable plan : gmap string plan_entry.
Variable today : Z.
Variables start_hour end_hour : Z.
Variable block_hours : H.
Variable break_minutes : Z.
Variable order_pref : string.

Local Abbreviation day fuel :=
  (schedule_day fuel subjects plan today start_hour end_hour block_hours break_minutes
     order_pref).
Local Abbreviation days fuel :=
  (days_loop fuel subjects plan today start_hour end_hour block_hours break_minutes
     order_pref).
Lemma schedule_day_fuel fuel fuel' day_offset r :
  day fuel day_offset = r → r ≠ OutOfFuel → (fuel ≤ fuel')%nat →
  day fuel' day_offset = r.
Proof.
  unfold schedule_day. destruct (active_on _ _) as [|s0 active]; [done|].
  destruct (initial_hours _ _ _) as [hours| |]; simpl; [|done|done].
  destruct (time_of_hour start_hour) as [current| |]; simpl; [|done|done].
  destruct (time_of_hour end_hour) as [end_time| |]; simpl; [|done|done].
  destruct (while_loop _ _ _ fuel _ _) as [st| |] eqn:Hloop; simpl; intros <- Hne Hle.
  - by rewrite (while_loop_fuel _ _ _ _ _ _ _ fuel' Hloop).
  - by rewrite (while_loop_fuel _ _ _ _ _ _ _ fuel' Hloop).
  - done.
Qed.

Lemma days_loop_fuel fuel fuel' offsets : ∀ r,
  days fuel offsets = r → r ≠ OutOfFuel → (fuel ≤ fuel')%nat →
  days fuel' offsets = r.
Proof.
  induction offsets as [|k offsets IH]; intros r; simpl; [done|].
  destruct (day fuel k) as [entry| |] eqn:Hday; simpl; intros <- Hne Hle.
  - rewrite (schedule_day_fuel _ fuel' _ _ Hday) by done. simpl.
    destruct (days fuel offsets) as [tt| |] eqn:Hdays; simpl in *.
    + by rewrite (IH _ eq_refl).
    + by rewrite (IH _ eq_refl).
    + done.
  - by rewrite (schedule_day_fuel _ fuel' _ _ Hday).
  - done.
Qed.

End TimetableFuel.

Lemma generate_timetable_fuel {H : Type} `{HourOps H} fuel fuel' subjects plan today
    start_hour end_hour (block_hours : H) break_minutes order_pref r :
  generate_timetable fuel subjects plan today start_hour end_hour block_hours
    break_minutes order_pref = r →
  r ≠ OutOfFuel → (fuel ≤ fuel')%nat →
  generate_timetable fuel' subjects plan today start_hour end_hour block_hours
    break_minutes order_pref = r.
Proof.
  unfold generate_timetable. destruct subjects as [|s rest] eqn:Hsubjects; [done|].
  rewrite <- Hsubjects. case_decide; [done|].
  destruct (days_loop fuel _ _ _ _ _ _ _ _ _) as [tt| |] eqn:Hdays; simpl;
    intros <- Hne Hle.
  - by rewrite (days_loop_fuel _ _ _ _ _ _ _ _ _ fuel' _ _ Hdays).
  - by rewrite (days_loop_fuel _ _ _ _ _ _ _ _ _ fuel' _ _ Hdays).
  - done.
Qed.


(** ** The scenario *)

Lemma generate_plan_math today :
  generate_plan predict_two today (math_subjects today) =
    Some {[ "Math" := {| daily_hours := 2; days_left := Z.max 1 (today + 3 - today);
                         plan_deadline := today + 3 |} ]}.
Proof. done. Qed.

Lemma math_day today plan (k : nat) :
  generate_plan predict_two today (math_subjects today) = Some plan →
  (k ≤ 3)%nat →
  schedule_day (H := Q) 2 (math_subjects today) plan today 9 12 1%Q 10 "A" k =
    Done (Some (today + Z.of_nat k, math_blocks)).
Proof.
  rewrite generate_plan_math. intros [= <-] Hk.
  unfold schedule_day, active_on, math_subjects.
  rewrite filter_cons, decide_True by (simpl; lia). rewrite filter_nil.
  generalize (today + Z.of_nat k). intros day_date.
  cbn [initial_hours name]. rewrite lookup_singleton_eq. cbn [daily_hours].
  vm_compute. reflexivity.
Qed.

(** C1. The scenario: one subject Math (difficulty 2, due in three days,
    marks 50), two hours predicted, the window 9 to 12, blocks of one hour,
    breaks of ten minutes, fixed order.  Day 0 holds exactly the two blocks
    09:00-10:00 and 10:10-11:10 for Math, the quota then being used up, and
    days 1 to 3 hold the same two blocks; day 3 is the last day.  Two passes
    of the allocation loop produce the result, and more change nothing. *)
Theorem math_scenario_timetable (today : Z) (fuel : nat) :
  (2 ≤ fuel)%nat →
  ∃ plan timetable,
    generate_plan predict_two today (math_subjects today) = Some plan ∧
    generate_timetable (H := Q) fuel (math_subjects today) plan today 9 12 1%Q 10 "A"
      = Done (Some timetable) ∧
    timetable = [ (today, math_blocks); (today + 1, math_blocks);
                  (today + 2, math_blocks); (today + 3, math_blocks) ] ∧
    render_day <$> timetable =
      [ (today, math_lines); (today + 1, math_lines);
        (today + 2, math_lines); (today + 3, math_lines) ].
Proof.
  intros Hfuel.
  destruct (generate_plan predict_two today (math_subjects today)) as [plan|] eqn:Hplan;
    [|done].
  exists plan. eexists. split; [done|].
  assert (generate_timetable (H := Q) 2 (math_subjects today) plan today 9 12 1%Q 10 "A"
          = Done (Some [ (today, math_blocks); (today + 1, math_blocks);
                         (today + 2, math_blocks); (today + 3, math_blocks) ])) as Hrun.
  { unfold generate_timetable.
    destruct (math_subjects today) as [|s rest] eqn:Hsubjects; [done|].
    rewrite <- Hsubjects. injection Hsubjects as <- <-.
    rewrite decide_False by (rewrite generate_plan_math in Hplan; injection Hplan as <-;
                             apply insert_non_empty).
    cbn [fmap list_fmap foldl deadline]. unfold days_between.
    replace (Z.to_nat (today + 3 - today + 1)) with 4%nat by lia.
    cbn [seq days_loop].
    rewrite !(math_day today plan) by (done || lia).
    cbn [mbind outcome_bind option_list app Z.of_nat Pos.of_succ_nat Pos.succ].
    by rewrite Z.add_0_r. }
  split; [|split; [reflexivity|]].
  - by apply (generate_timetable_fuel 2 fuel _ _ _ _ _ _ _ _ _ Hrun).
  - reflexivity.
Qed.

Lemma math_scenario_timetable_witness :
  (2 ≤ 2)%nat ∧
  ∃ plan timetable,
    generate_plan predict_two 739047 (math_subjects 739047) = Some plan ∧
    generate_timetable (H := Q) 2 (math_subjects 739047) plan 739047 9 12 1%Q 10 "A"
      = Done (Some timetable) ∧
    timetable = [ (739047, math_blocks); (739047 + 1, math_blocks);
                  (739047 + 2, math_blocks); (739047 + 3, math_blocks) ] ∧
    render_day <$> timetable =
      [ (739047, math_lines); (739047 + 1, math_lines);
        (739047 + 2, math_lines); (739047 + 3, math_lines) ].
Proof.
  split; [lia|]. apply (math_scenario_timetable 739047 2). lia.
Defined.

(** ** The allocation loop: where the blocks lie *)

Section AllocationFacts.
Context {H : Type} `{HourLaws H}.
Variable block_hours : H.
Variable break_minutes : Z.
Variables start_time end_time : Z.
Hypothesis block_positive : h_le0 block_hours = false.
Hypothesis break_nonneg : 0 ≤ break_minutes.

Local Abbreviation loop := (while_loop block_hours break_minutes end_time).
Local Abbreviation pass := (for_pass block_hours break_minutes end_time).
Local Abbreviation ok := (placed start_time end_time (break_minutes * us_per_minute)).

Lemma allocate_placed sub_name h st :
  ok st → fits block_hours end_time (current_time st) = true →
  h_le0 h = false →
  ok (allocate block_hours break_minutes sub_name h st).
Proof.
  intros [Hapart Hwin Hbefore Hstart] Hfits%Z.leb_le Hh.
  pose proof (timedelta_min_le block_hours h) as Hle.
  pose proof (timedelta_min_nonneg block_hours h block_positive Hh) as Hge.
  assert (0 ≤ break_minutes * us_per_minute) as Hbreak by (unfold us_per_minute; lia).
  split; simpl.
  - apply StronglySorted_app_2; [|done|repeat constructor].
    intros b1 b2 Hb1 ->%list_elem_of_singleton. unfold apart. simpl.
    by apply (proj1 (Forall_forall _ _) Hbefore).
  - apply Forall_app. split; [done|]. repeat constructor; simpl; lia.
  - apply Forall_app. split.
    + eapply Forall_impl; [exact Hbefore|]. simpl. intros; lia.
    + repeat constructor; simpl; lia.
  - lia.
Qed.

Lemma for_pass_placed order :
  ∀ st st', ok st → fits block_hours end_time (current_time st) = true →
    pass order st = Done st' → ok st'.
Proof.
  induction order as [|sub_name order IH]; intros st st' Hok Hfits; cbn [for_pass].
  - by intros [= <-].
  - destruct (hours_left st !! sub_name) as [h|]; [|done].
    destruct (h_le0 h) eqn:Hh; [by apply IH|].
    pose proof (allocate_placed sub_name h st Hok Hfits Hh) as Hok'.
    destruct (fits block_hours end_time
                (current_time (allocate block_hours break_minutes sub_name h st)))
      eqn:Hfits'.
    + by apply IH.
    + by intros [= <-].
Qed.

Lemma while_loop_placed fuel order :
  ∀ st st', ok st → loop fuel order st = Done st' → ok st'.
Proof.
  induction fuel as [|fuel IH]; intros st st' Hok; simpl; [done|].
  destruct (fits _ _ _) eqn:Hfits; simpl; [|by intros [= <-]].
  destruct (any_hours _); [|by intros [= <-]].
  destruct (pass order st) as [st1| |] eqn:Hpass; simpl; [|done|done].
  pose proof (for_pass_placed order st st1 Hok Hfits Hpass) as Hok1.
  destruct (all_done _); [by intros [= <-]|]. by apply IH.
Qed.
End AllocationFacts.

(** ** The allocation loop: whose blocks they are *)

Section AllocationLabels.
Context {H : Type} `{HourOps H}.
Variable block_hours : H.
Variable break_minutes : Z.
Variable end_time : Z.
Variable names : list string.

Local Abbreviation loop := (while_loop block_hours break_minutes end_time).
Local Abbreviation pass := (for_pass block_hours break_minutes end_time).

Lemma for_pass_labelled order : order ⊆ names →
  ∀ st st', labelled names st → pass order st = Done st' → labelled names st'.
Proof.
  induction order as [|sub_name order IH]; intros Hsub st st' Hok; cbn [for_pass].
  - by intros [= <-].
  - assert (sub_name ∈ names) as Hin by (apply Hsub; by left).
    assert (order ⊆ names) as Hrest by (intros n Hn; apply Hsub; by right).
    destruct (hours_left st !! sub_name) as [h|]; [|done].
    destruct (h_le0 h); [by apply IH|].
    assert (labelled names (allocate block_hours break_minutes sub_name h st)) as Hok'.
    { unfold labelled. simpl. apply Forall_app. split; [done|]. by repeat constructor. }
    destruct (fits _ _ _); [by apply IH|by intros [= <-]].
Qed.

Lemma while_loop_labelled fuel order : order ⊆ names →
  ∀ st st', labelled names st → loop fuel order st = Done st' → labelled names st'.
Proof.
  intros Hsub. induction fuel as [|fuel IH]; intros st st' Hok; simpl; [done|].
  destruct (fits _ _ _ && any_hours _); [|by intros [= <-]].
  destruct (pass order st) as [st1| |] eqn:Hpass; simpl; [|done|done].
  pose proof (for_pass_labelled order Hsub st st1 Hok Hpass) as Hok1.
  destruct (all_done _); [by intros [= <-]|]. by apply IH.
Qed.
End AllocationLabels.

(** ** The order of a day *)

Lemma filter_all {A} (P : A → Prop) `{!∀ x, Decision (P x)} (l : list A) :
  Forall P l → filter P l = l.
Proof.
  induction 1 as [|x l Hx _ IH]; [done|].
  by rewrite filter_cons, decide_True, IH.
Qed.

Lemma rotate_left_perm {A} k (l : list A) : rotate_left k l ≡ₚ l.
Proof. unfold rotate_left. by rewrite Permutation_app_comm, take_drop. Qed.

(** Whatever the policy, the day's order holds the names of the active
    subjects, each as often as it occurs among them. *)
Lemma day_order_perm order_pref fixed day_offset active :
  Forall (λ s, name s ∈ fixed) active →
  day_order order_pref fixed day_offset active ≡ₚ name <$> active.
Proof.
  intros Hfixed. unfold day_order. repeat case_decide.
  - by rewrite filter_all.
  - apply rotate_left_perm.
  - by rewrite sorted_perm.
  - done.
Qed.

Lemma active_on_elem subjects day_date s :
  s ∈ active_on subjects day_date ↔ day_date ≤ deadline s ∧ s ∈ subjects.
Proof. unfold active_on. by rewrite list_elem_of_filter. Qed.

Lemma active_on_fixed subjects day_date :
  Forall (λ s, name s ∈ fixed_order subjects) (active_on subjects day_date).
Proof.
  apply Forall_forall. intros s [_ Hs]%active_on_elem.
  unfold fixed_order. by apply list_elem_of_fmap_2.
Qed.

Lemma time_of_hour_Done hour t :
  time_of_hour hour = Done t ↔ 0 ≤ hour ≤ 23 ∧ t = hour * us_per_hour.
Proof.
  unfold time_of_hour.
  destruct (Z.leb_spec 0 hour), (Z.leb_spec hour 23); simpl; split;
    try (intros [= <-]; lia); try (intros [? ->]; done || lia).
Qed.

Lemma foldl_max_init (l : list Z) : ∀ a, a ≤ foldl Z.max a l.
Proof.
  induction l as [|y l IH]; intros a; simpl; [lia|].
  transitivity (Z.max a y); [lia|apply IH].
Qed.

Lemma foldl_max_ge (a : Z) (l : list Z) x : x ∈ a :: l → x ≤ foldl Z.max a l.
Proof.
  revert a. induction l as [|y l IH]; intros a Hx; simpl.
  - apply list_elem_of_singleton in Hx. lia.
  - apply elem_of_cons in Hx as [Hx|Hx]; [|apply elem_of_cons in Hx as [Hx|Hx]].
    + transitivity (Z.max a y); [lia|apply foldl_max_init].
    + transitivity (Z.max a y); [lia|apply foldl_max_init].
    + apply IH. by right.
Qed.

(** ** The days of the timetable *)

Section TimetableFacts.
Context {H : Type} `{HourOps H}.
Variable fuel : nat.
Variable subjects : list subject.
Variable plan : gmap string plan_entry.
Variable today : Z.
Variables start_hour end_hour : Z.
Variable block_hours : H.
Variable break_minutes : Z.
Variable order_pref : string.

Local Abbreviation day :=
  (schedule_day fuel subjects plan today start_hour end_hour block_hours break_minutes
     order_pref).
Local Abbreviation days :=
  (days_loop fuel subjects plan today start_hour end_hour block_hours break_minutes
     order_pref).

(** The entry of a day comes from a run of the loop in the day's order, from
    the start hour and with no block yet. *)
Lemma schedule_day_entry day_offset day_date blocks :
  day day_offset = Done (Some (day_date, blocks)) →
  day_date = today + Z.of_nat day_offset ∧
  0 ≤ start_hour ≤ 23 ∧ 0 ≤ end_hour ≤ 23 ∧
  ∃ hours st,
    while_loop block_hours break_minutes (end_hour * us_per_hour) fuel
      (day_order order_pref (fixed_order subjects) day_offset (active_on subjects day_date))
      {| hours_left := hours; current_time := start_hour * us_per_hour; day_schedule := [] |}
      = Done st ∧
    blocks = day_schedule st.
Proof.
  unfold schedule_day.
  destruct (active_on subjects (today + Z.of_nat day_offset)) as [|s0 active] eqn:Hactive;
    [done|]. rewrite <- Hactive.
  destruct (initial_hours _ _ _) as [hours| |]; simpl; [|done|done].
  destruct (time_of_hour start_hour) as [current| |] eqn:Hstart; simpl; [|done|done].
  destruct (time_of_hour end_hour) as [end_time| |] eqn:Hend; simpl; [|done|done].
  apply time_of_hour_Done in Hstart as [? ->]. apply time_of_hour_Done in Hend as [? ->].
  destruct (while_loop _ _ _ _ _ _) as [st| |] eqn:Hloop; simpl; [|done|done].
  intros [= <- <-]. do 3 (split; [done|]). by exists hours, st.
Qed.

(** A day with an active subject is not skipped. *)
Lemma schedule_day_active day_offset entry :
  day day_offset = Done entry →
  active_on subjects (today + Z.of_nat day_offset) ≠ [] →
  ∃ blocks, entry = Some (today + Z.of_nat day_offset, blocks).
Proof.
  unfold schedule_day.
  destruct (active_on subjects (today + Z.of_nat day_offset)) as [|s0 active]; [done|].
  destruct (initial_hours _ _ _) as [hours| |]; simpl; [|done|done].
  destruct (time_of_hour start_hour) as [current| |]; simpl; [|done|done].
  destruct (time_of_hour end_hour) as [end_time| |]; simpl; [|done|done].
  destruct (while_loop _ _ _ _ _ _) as [st| |]; simpl; [|done|done].
  intros [= <-] _. by eexists.
Qed.

Lemma days_loop_elem offsets : ∀ timetable entry,
  days offsets = Done timetable → entry ∈ timetable →
  ∃ day_offset, day_offset ∈ offsets ∧ day day_offset = Done (Some entry).
Proof.
  induction offsets as [|k offsets IH]; intros timetable entry; simpl.
  - intros [= <-] Hin. by apply elem_of_nil in Hin.
  - destruct (day k) as [e| |] eqn:Hday; simpl; [|done|done].
    destruct (days offsets) as [tt| |]; simpl; [|done|done].
    intros [= <-] [Hin|Hin]%elem_of_app.
    + destruct e as [e|]; simpl in Hin; [|by apply elem_of_nil in Hin].
      apply list_elem_of_singleton in Hin as ->. exists k. split; [by left|done].
    + destruct (IH tt entry eq_refl Hin) as (k' & ? & ?). exists k'. split; [by right|done].
Qed.

Lemma days_loop_present offsets : ∀ timetable day_offset,
  days offsets = Done timetable → day_offset ∈ offsets →
  ∃ entry, day day_offset = Done entry ∧ ∀ e, entry = Some e → e ∈ timetable.
Proof.
  induction offsets as [|k offsets IH]; intros timetable day_offset; simpl.
  - intros _ Hin. by apply elem_of_nil in Hin.
  - destruct (day k) as [e| |] eqn:Hday; simpl; [|done|done].
    destruct (days offsets) as [tt| |]; simpl; [|done|done].
    intros [= <-] [->|Hin]%elem_of_cons.
    + exists e. split; [done|]. intros e' ->. apply elem_of_app. left. by left.
    + destruct (IH tt day_offset eq_refl Hin) as (e' & ? & Hall). exists e'.
      split; [done|]. intros e'' He. apply elem_of_app. right. by apply Hall.
Qed.
End TimetableFacts.

(** The timetable, when there is one, is the result of the loop over the days
    from today to the last deadline. *)
Lemma generate_timetable_days {H : Type} `{HourOps H} fuel subjects plan today
    start_hour end_hour (block_hours : H) break_minutes order_pref timetable :
  generate_timetable fuel subjects plan today start_hour end_hour block_hours
    break_minutes order_pref = Done (Some timetable) →
  ∃ last_day,
    (∀ s, s ∈ subjects → deadline s ≤ last_day) ∧
    days_loop fuel subjects plan today start_hour end_hour block_hours break_minutes
      order_pref (seq 0 (Z.to_nat (last_day - today + 1))) = Done timetable.
Proof.
  unfold generate_timetable. destruct subjects as [|s rest] eqn:Hsubjects; [done|].
  rewrite <- Hsubjects. case_decide; [done|].
  destruct (days_loop _ _ _ _ _ _ _ _ _ _) as [tt| |] eqn:Hdays; simpl; [|done|done].
  intros [= <-]. eexists. split; [|exact Hdays].
  intros s' Hs'. rewrite Hsubjects in Hs'. apply foldl_max_ge.
  change (deadline s :: (deadline <$> rest)) with (deadline <$> s :: rest).
  by apply list_elem_of_fmap_2.
Qed.

Lemma StronglySorted_lookup_lt {A} (R : relation A) (l : list A) :
  StronglySorted R l →
  ∀ i j x y, (i < j)%nat → l !! i = Some x → l !! j = Some y → R x y.
Proof.
  induction 1 as [|z l Hs IH Hall]; intros i j x y Hlt Hi Hj; [done|].
  destruct j as [|j]; [lia|]. simpl in Hj.
  destruct i as [|i]; simpl in Hi.
  - injection Hi as <-. eapply (proj1 (Forall_forall _ _) Hall).
    by eapply list_elem_of_lookup_2.
  - apply (IH i j); [lia|done|done].
Qed.

(** C2. With [start_hour < end_hour], [block_hours] positive and
    [break_minutes] not negative, the blocks of every day of the generated
    timetable do not overlap and are in the order of their start times: a
    later block starts no earlier than an earlier block ends plus the break,
    hence no earlier than it ends and no earlier than it starts, and strictly
    later when the break is positive or the earlier block is not of length
    zero; and every block lies between the start hour and the end hour of the
    day, so none ends after [end_hour]. *)
Theorem timetable_blocks_ordered_in_window {H : Type} `{HourLaws H}
    (fuel : nat) (subjects : list subject) (plan : gmap string plan_entry) (today : Z)
    (start_hour end_hour : Z) (block_hours : H) (break_minutes : Z) (order_pref : string)
    (timetable : list (Z * list block)) (day_date : Z) (blocks : list block) :
  start_hour < end_hour → h_le0 block_hours = false → 0 ≤ break_minutes →
  generate_timetable fuel subjects plan today start_hour end_hour block_hours
    break_minutes order_pref = Done (Some timetable) →
  (day_date, blocks) ∈ timetable →
  (∀ i j bi bj, (i < j)%nat → blocks !! i = Some bi → blocks !! j = Some bj →
     blk_end bi + break_minutes * us_per_minute ≤ blk_start bj ∧
     blk_end bi ≤ blk_start bj ∧
     blk_start bi ≤ blk_start bj ∧
     (0 < break_minutes ∨ blk_start bi < blk_end bi → blk_start bi < blk_start bj)) ∧
  (∀ b, b ∈ blocks →
     start_hour * us_per_hour ≤ blk_start b ∧
     blk_start b ≤ blk_end b ∧
     blk_end b ≤ end_hour * us_per_hour).
Proof.
  intros _ Hblock Hbreak Hrun Hin.
  destruct (generate_timetable_days _ _ _ _ _ _ _ _ _ _ Hrun) as (last_day & _ & Hdays).
  destruct (days_loop_elem _ _ _ _ _ _ _ _ _ _ _ _ Hdays Hin) as (k & _ & Hday).
  destruct (schedule_day_entry _ _ _ _ _ _ _ _ _ _ _ _ Hday)
    as (_ & _ & _ & hours & st & Hloop & ->).
  assert (placed (start_hour * us_per_hour) (end_hour * us_per_hour)
            (break_minutes * us_per_minute) st) as [Hapart Hwin _ _].
  { eapply while_loop_placed; [done|done| |exact Hloop].
    split; simpl; [constructor|constructor|constructor|lia]. }
  rewrite Forall_forall in Hwin. split; [|exact Hwin].
  intros i j bi bj Hlt Hi Hj.
  pose proof (StronglySorted_lookup_lt _ _ Hapart i j bi bj Hlt Hi Hj) as Hgap.
  unfold apart in Hgap.
  destruct (Hwin bi) as (_ & ? & _); [by eapply list_elem_of_lookup_2|].
  unfold us_per_minute in *. repeat split; lia.
Qed.

(** ** The exact hours obey the laws *)

Lemma round_half_even_bounds q :
  (Qfloor q ≤ round_half_even q ≤ Qfloor q + 1)%Z.
Proof.
  unfold round_half_even. destruct (Qcompare _ _); [destruct (Z.even _)| |]; lia.
Qed.

Lemma round_half_even_mono x y : (x <= y)%Q → round_half_even x ≤ round_half_even y.
Proof.
  intros Hle. pose proof (Qfloor_resp_le _ _ Hle) as Hfloor.
  pose proof (round_half_even_bounds x) as Hx. pose proof (round_half_even_bounds y) as Hy.
  destruct (decide (Qfloor x = Qfloor y)) as [Heq|Hne]; [|lia].
  unfold round_half_even in *. rewrite <- Heq in *.
  destruct (Qcompare (x - inject_Z (Qfloor x)) (1 # 2)) eqn:Hcx;
    destruct (Qcompare (y - inject_Z (Qfloor x)) (1 # 2)) eqn:Hcy;
    try (destruct (Z.even (Qfloor x)); lia); try lia.
  - apply Qeq_alt in Hcx. apply Qlt_alt in Hcy. lra.
  - apply Qgt_alt in Hcx. apply Qeq_alt in Hcy. lra.
  - apply Qgt_alt in Hcx. apply Qlt_alt in Hcy. lra.
Qed.

#[global] Instance Q_hour_laws : HourLaws Q.
Proof.
  split; simpl.
  - intros b h. destruct (Qle_bool b h) eqn:Hbh; [lia|].
    apply round_half_even_mono.
    assert (¬ (b <= h)%Q) as Hlt by (rewrite <- Qle_bool_iff; congruence).
    apply Qnot_le_lt in Hlt. apply Qmult_le_compat_r; [by apply Qlt_le_weak|done].
  - intros b h Hb Hh.
    assert (¬ (b <= 0)%Q) as Hb' by (rewrite <- Qle_bool_iff; congruence).
    assert (¬ (h <= 0)%Q) as Hh' by (rewrite <- Qle_bool_iff; congruence).
    apply Qnot_le_lt in Hb', Hh'.
    change 0 with (round_half_even 0). apply round_half_even_mono.
    apply Qmult_le_0_compat; [|done]. destruct (Qle_bool b h); by apply Qlt_le_weak.
Qed.

Lemma timetable_blocks_ordered_in_window_witness :
  9 < 12 ∧ h_le0 1%Q = false ∧ 0 ≤ 10 ∧
  generate_timetable (H := Q) 2 (math_subjects 739047) math_plan 739047 9 12 1%Q 10 "A"
    = Done (Some math_timetable) ∧
  (739048, math_blocks) ∈ math_timetable ∧
  (∀ i j bi bj, (i < j)%nat → math_blocks !! i = Some bi → math_blocks !! j = Some bj →
     blk_end bi + 10 * us_per_minute ≤ blk_start bj ∧
     blk_end bi ≤ blk_start bj ∧
     blk_start bi ≤ blk_start bj ∧
     (0 < 10 ∨ blk_start bi < blk_end bi → blk_start bi < blk_start bj)) ∧
  (∀ b, b ∈ math_blocks →
     9 * us_per_hour ≤ blk_start b ∧
     blk_start b ≤ blk_end b ∧
     blk_end b ≤ 12 * us_per_hour).
Proof.
  assert (generate_timetable (H := Q) 2 (math_subjects 739047) math_plan 739047 9 12 1%Q
            10 "A" = Done (Some math_timetable)) as Hrun by (vm_compute; reflexivity).
  assert ((739048, math_blocks) ∈ math_timetable) as Hin by (right; left).
  split; [lia|]. split; [reflexivity|]. split; [lia|]. split; [exact Hrun|].
  split; [exact Hin|].
  apply (timetable_blocks_ordered_in_window 2 (math_subjects 739047) math_plan 739047
           9 12 1%Q 10 "A" math_timetable 739048 math_blocks);
    [lia|reflexivity|lia|exact Hrun|exact Hin].
Defined.

(** ** Deadlines *)

Lemma NoDup_fmap_eq {A B} (f : A → B) (l : list A) x y :
  NoDup (f <$> l) → x ∈ l → y ∈ l → f x = f y → x = y.
Proof.
  intros Hnd [i Hi]%list_elem_of_lookup_1 [j Hj]%list_elem_of_lookup_1 Hf.
  assert (i = j) as ->; [|congruence].
  eapply NoDup_alt; [exact Hnd| |]; rewrite list_lookup_fmap.
  - by rewrite Hi.
  - rewrite Hj. simpl. by rewrite Hf.
Qed.

(** A block of a day is labelled with the name of a subject active that day. *)
Lemma timetable_block_active {H : Type} `{HourOps H} fuel subjects plan today
    start_hour end_hour (block_hours : H) break_minutes order_pref timetable
    day_date blocks blk :
  generate_timetable fuel subjects plan today start_hour end_hour block_hours
    break_minutes order_pref = Done (Some timetable) →
  (day_date, blocks) ∈ timetable → blk ∈ blocks →
  ∃ s, s ∈ subjects ∧ name s = blk_subject blk ∧ day_date ≤ deadline s.
Proof.
  intros Hrun Hin Hblk.
  destruct (generate_timetable_days _ _ _ _ _ _ _ _ _ _ Hrun) as (last_day & _ & Hdays).
  destruct (days_loop_elem _ _ _ _ _ _ _ _ _ _ _ _ Hdays Hin) as (k & _ & Hday).
  destruct (schedule_day_entry _ _ _ _ _ _ _ _ _ _ _ _ Hday)
    as (_ & _ & _ & hours & st & Hloop & ->).
  assert (labelled (name <$> active_on subjects day_date) st) as Hlabels.
  { refine (while_loop_labelled _ _ _ _ _ _ _ _ _ _ Hloop); [|by apply Forall_nil].
    intros n Hn.
    by rewrite (day_order_perm order_pref _ k _ (active_on_fixed subjects day_date)) in Hn. }
  unfold labelled in Hlabels. rewrite Forall_forall in Hlabels.
  destruct (proj1 (list_elem_of_fmap _ _ _) (Hlabels blk Hblk)) as (s & Hname & Hs).
  apply active_on_elem in Hs as [? ?]. by exists s.
Qed.

(** C3. Whatever the subjects and the plan, every block of a day of the
    generated timetable is given to a subject that is active that day: it
    bears the name of a subject whose deadline is not before the day, so
    (names identifying subjects) no subject has a block on a day after its
    deadline.  On the day of its deadline itself a subject is still served:
    it is among the active subjects of that day, its name is in the day's
    order under every policy, and the day is in the timetable. *)
Theorem no_block_after_deadline {H : Type} `{HourOps H}
    (fuel : nat) (subjects : list subject) (plan : gmap string plan_entry) (today : Z)
    (start_hour end_hour : Z) (block_hours : H) (break_minutes : Z) (order_pref : string)
    (timetable : list (Z * list block)) :
  generate_timetable fuel subjects plan today start_hour end_hour block_hours
    break_minutes order_pref = Done (Some timetable) →
  (∀ day_date blocks blk, (day_date, blocks) ∈ timetable → blk ∈ blocks →
     ∃ s, s ∈ subjects ∧ name s = blk_subject blk ∧ day_date ≤ deadline s) ∧
  (NoDup (name <$> subjects) →
   ∀ s day_date blocks blk, s ∈ subjects → (day_date, blocks) ∈ timetable →
     blk ∈ blocks → blk_subject blk = name s → day_date ≤ deadline s) ∧
  (∀ s, s ∈ subjects → today ≤ deadline s →
     s ∈ active_on subjects (deadline s) ∧
     (∀ day_offset, name s ∈ day_order order_pref (fixed_order subjects) day_offset
                               (active_on subjects (deadline s))) ∧
     ∃ blocks, (deadline s, blocks) ∈ timetable).
Proof.
  intros Hrun. split; [|split].
  - intros day_date blocks blk. by eapply timetable_block_active.
  - intros Hnames s day_date blocks blk Hs Hin Hblk Hlabel.
    destruct (timetable_block_active _ _ _ _ _ _ _ _ _ _ _ _ _ Hrun Hin Hblk)
      as (s' & Hs' & Hname & Hle).
    assert (s' = s) as -> by (eapply NoDup_fmap_eq; [done..|congruence]). done.
  - intros s Hs Htoday.
    assert (s ∈ active_on subjects (deadline s)) as Hactive
      by (apply active_on_elem; split; [lia|done]).
    split; [done|]. split.
    + intros k.
      rewrite (day_order_perm order_pref _ k _ (active_on_fixed subjects (deadline s))).
      by apply list_elem_of_fmap_2.
    + destruct (generate_timetable_days _ _ _ _ _ _ _ _ _ _ Hrun)
        as (last_day & Hlast & Hdays).
      pose proof (Hlast s Hs) as Hle.
      set (k := Z.to_nat (deadline s - today)).
      assert (today + Z.of_nat k = deadline s) as Hk by lia.
      assert (k ∈ seq 0 (Z.to_nat (last_day - today + 1))) as Hin
        by (apply elem_of_seq; lia).
      destruct (days_loop_present _ _ _ _ _ _ _ _ _ _ _ _ Hdays Hin)
        as (entry & Hday & Hall).
      destruct (schedule_day_active _ _ _ _ _ _ _ _ _ _ _ Hday) as [blocks ->].
      { rewrite Hk. intros Hnil. rewrite Hnil in Hactive. by apply elem_of_nil in Hactive. }
      exists blocks. rewrite <- Hk. by apply Hall.
Qed.

Lemma no_block_after_deadline_witness :
  generate_timetable (H := Q) 2 (math_subjects 739047) math_plan 739047 9 12 1%Q 10 "A"
    = Done (Some math_timetable) ∧
  (∀ day_date blocks blk, (day_date, blocks) ∈ math_timetable → blk ∈ blocks →
     ∃ s, s ∈ math_subjects 739047 ∧ name s = blk_subject blk ∧ day_date ≤ deadline s) ∧
  (NoDup (name <$> math_subjects 739047) →
   ∀ s day_date blocks blk, s ∈ math_subjects 739047 → (day_date, blocks) ∈ math_timetable →
     blk ∈ blocks → blk_subject blk = name s → day_date ≤ deadline s) ∧
  (∀ s, s ∈ math_subjects 739047 → 739047 ≤ deadline s →
     s ∈ active_on (math_subjects 739047) (deadline s) ∧
     (∀ day_offset, name s ∈ day_order "A" (fixed_order (math_subjects 739047)) day_offset
                               (active_on (math_subjects 739047) (deadline s))) ∧
     ∃ blocks, (deadline s, blocks) ∈ math_timetable).
Proof.
  assert (generate_timetable (H := Q) 2 (math_subjects 739047) math_plan 739047 9 12 1%Q
            10 "A" = Done (Some math_timetable)) as Hrun by (vm_compute; reflexivity).
  split; [exact Hrun|].
  exact (no_block_after_deadline 2 (math_subjects 739047) math_plan 739047 9 12 1%Q 10 "A"
           math_timetable Hrun).
Defined.

(** ** A window that is closed from the start *)

Lemma foldl_max_elem (l : list Z) : ∀ a, foldl Z.max a l ∈ a :: l.
Proof.
  induction l as [|y l IH]; intros a; simpl; [by left|].
  pose proof (IH (Z.max a y)) as Hm. apply elem_of_cons in Hm as [Heq|Hin].
  - rewrite Heq. destruct (Z.max_spec a y) as [[_ ->]|[_ ->]].
    + right. by left.
    + by left.
  - right. by right.
Qed.

Lemma time_of_hour_in_range hour :
  0 ≤ hour ≤ 23 → time_of_hour hour = Done (hour * us_per_hour).
Proof. intros ?. by apply time_of_hour_Done. Qed.

Section ClosedWindow.
Context {H : Type} `{HourOps H}.
Variable fuel : nat.
Variable subjects : list subject.
Variable plan : gmap string plan_entry.
Variable today : Z.
Variables start_hour end_hour : Z.
Variable block_hours : H.
Variable break_minutes : Z.
Variable order_pref : string.
Hypothesis plan_complete : ∀ s, s ∈ subjects → is_Some (plan !! name s).
Hypothesis end_in_range : 0 ≤ end_hour.
Hypothesis end_before_start : end_hour ≤ start_hour.
Hypothesis start_in_range : start_hour ≤ 23.
Hypothesis block_length : 0 < timedelta_hours block_hours.
Hypothesis some_fuel : (0 < fuel)%nat.

Lemma initial_hours_Done active : (∀ s, s ∈ active → s ∈ subjects) →
  ∀ m, ∃ hours, initial_hours (H := H) plan active m = Done hours.
Proof.
  induction active as [|s active IH]; intros Hsub m; simpl; [by eexists|].
  destruct (plan_complete s) as [e ->]; [apply Hsub; by left|].
  apply IH. intros s' Hs'. apply Hsub. by right.
Qed.

Lemma while_loop_closed order st :
  current_time st = start_hour * us_per_hour →
  while_loop block_hours break_minutes (end_hour * us_per_hour) fuel order st = Done st.
Proof.
  intros Hstart. destruct fuel as [|fuel']; [lia|]. simpl.
  unfold fits. rewrite Hstart.
  destruct (Z.leb_spec (start_hour * us_per_hour + timedelta_hours block_hours)
              (end_hour * us_per_hour)); [|done].
  unfold us_per_hour in *. lia.
Qed.

Lemma schedule_day_closed day_offset :
  active_on subjects (today + Z.of_nat day_offset) ≠ [] →
  schedule_day fuel subjects plan today start_hour end_hour block_hours break_minutes
    order_pref day_offset = Done (Some (today + Z.of_nat day_offset, [])).
Proof.
  intros Hactive. unfold schedule_day.
  destruct (active_on subjects (today + Z.of_nat day_offset)) as [|s0 active] eqn:Heq;
    [done|]. rewrite <- Heq.
  assert (∀ s, s ∈ active_on subjects (today + Z.of_nat day_offset) → s ∈ subjects)
    as Hsub by (intros s Hs; by apply active_on_elem in Hs as [_ ?]).
  destruct (initial_hours_Done _ Hsub ∅) as [hours ->].
  rewrite !time_of_hour_in_range by lia. simpl.
  by rewrite while_loop_closed.
Qed.

Lemma days_loop_closed offsets :
  (∀ k, k ∈ offsets → active_on subjects (today + Z.of_nat k) ≠ []) →
  days_loop fuel subjects plan today start_hour end_hour block_hours break_minutes
    order_pref offsets = Done ((λ k, (today + Z.of_nat k, [])) <$> offsets).
Proof.
  induction offsets as [|k offsets IH]; intros Hactive; simpl; [done|].
  rewrite schedule_day_closed by (apply Hactive; by left). simpl.
  rewrite IH by (intros k' Hk'; apply Hactive; by right). done.
Qed.
End ClosedWindow.


(** Nor is a negative [block_hours] rejected: the loop runs, and its first
    pass gives Math a block from 09:00 back to 08:00. *)
Example negative_block_first_pass :
  (λ st, format_block <$> day_schedule st) <$>
    match for_pass (H := Q) (-1)%Q 10 (12 * us_per_hour) ["Math"]
            {| hours_left := {[ "Math" := 2%Q ]}; current_time := 9 * us_per_hour;
               day_schedule := [] |} with
    | Done st => Some st
    | _ => None
    end
  = Some ["09:00 - 08:00 : Math"].
Proof. vm_compute. reflexivity. Qed.



(** ** With a positive break the allocation loop ends *)

Section AllocationEnds.
Context {H : Type} `{HourLaws H}.
Variable block_hours : H.
Variable break_minutes : Z.
Variable end_time : Z.
Hypothesis block_positive : h_le0 block_hours = false.
Hypothesis break_positive : 0 < break_minutes.

Local Abbreviation loop := (while_loop block_hours break_minutes end_time).
Local Abbreviation pass := (for_pass block_hours break_minutes end_time).
Local Abbreviation break_us := (break_minutes * us_per_minute).

(** A pass raises nothing; either it gives no block, all the subjects of the
    order being served, or the clock advances by a break at least. *)
Lemma for_pass_progress order : ∀ st,
  (∀ n, n ∈ order → is_Some (hours_left st !! n)) →
  ∃ st', pass order st = Done st' ∧
    (∀ n, is_Some (hours_left st' !! n) ↔ is_Some (hours_left st !! n)) ∧
    ((st' = st ∧ ∀ n, n ∈ order → ∃ h, hours_left st !! n = Some h ∧ h_le0 h = true) ∨
     current_time st + break_us ≤ current_time st').
Proof.
  induction order as [|sub_name order IH]; intros st Hkeys; cbn [for_pass].
  - exists st. split; [done|]. split; [done|]. left. split; [done|].
    intros n Hn. by apply elem_of_nil in Hn.
  - destruct (Hkeys sub_name) as [h Hh]; [by left|]. rewrite Hh.
    assert (∀ n, n ∈ order → is_Some (hours_left st !! n)) as Hrest
      by (intros n Hn; apply Hkeys; by right).
    destruct (h_le0 h) eqn:Hle.
    + destruct (IH st Hrest) as (st' & Hpass & Hsame & [[-> Hserved]|Hadv]).
      * exists st. split; [done|]. split; [done|]. left. split; [done|].
        intros n [->|Hn]%elem_of_cons; [by exists h|by apply Hserved].
      * exists st'. split; [done|]. split; [done|]. by right.
    + set (st1 := allocate block_hours break_minutes sub_name h st).
      pose proof (timedelta_min_nonneg block_hours h block_positive Hle) as Hlen.
      assert (current_time st + break_us ≤ current_time st1) as Hadv by (simpl; lia).
      assert (∀ n, is_Some (hours_left st1 !! n) ↔ is_Some (hours_left st !! n)) as Hsame.
      { intros n. simpl. destruct (decide (sub_name = n)) as [<-|Hne].
        - rewrite lookup_insert_eq, Hh. split; by eexists.
        - by rewrite lookup_insert_ne. }
      destruct (fits block_hours end_time (current_time st1)).
      * destruct (IH st1) as (st' & Hpass & Hsame' & Hcases).
        { intros n Hn. apply Hsame, Hrest, Hn. }
        exists st'. split; [done|]. split; [intros n; by rewrite Hsame', Hsame|].
        right. destruct Hcases as [[-> _]|Hadv']; [done|].
        assert (0 < break_us) by (unfold us_per_minute; lia). lia.
      * exists st1. split; [done|]. split; [done|]. by right.
Qed.

Lemma served_all_done order (st : alloc H) :
  covers order st →
  (∀ n, n ∈ order → ∃ h, hours_left st !! n = Some h ∧ h_le0 h = true) →
  all_done (hours_left st) = true.
Proof.
  intros Hcov Hserved. unfold all_done. apply forallb_forall.
  intros h Hin%list_elem_of_In.
  apply list_elem_of_fmap in Hin as ([n h'] & -> & Hnh%elem_of_map_to_list). simpl.
  destruct (Hserved n) as (h & Hh & Hle); [apply Hcov; by eexists|].
  rewrite Hnh in Hh. by injection Hh as <-.
Qed.

Lemma while_loop_ends order : ∀ fuel st,
  covers order st → (0 < fuel)%nat →
  end_time - timedelta_hours block_hours - current_time st < (Z.of_nat fuel - 1) * break_us →
  ∃ st', loop fuel order st = Done st'.
Proof.
  assert (0 < break_us) as Hbreak by (unfold us_per_minute; lia).
  induction fuel as [|fuel IH]; intros st Hcov Hfuel Hroom; [lia|]. simpl.
  destruct (fits block_hours end_time (current_time st)) eqn:Hfits; simpl; [|by eexists].
  destruct (any_hours (hours_left st)); [|by eexists].
  apply Z.leb_le in Hfits.
  destruct (for_pass_progress order st) as (st1 & -> & Hsame & Hcases).
  { intros n Hn. by apply Hcov. }
  simpl. destruct (all_done (hours_left st1)) eqn:Hdone; [by eexists|].
  destruct Hcases as [[-> Hserved]|Hadv].
  - by rewrite (served_all_done order st Hcov Hserved) in Hdone.
  - apply IH.
    + intros n. by rewrite Hsame.
    + destruct fuel; [|lia]. simpl in Hroom. lia.
    + nia.
Qed.
End AllocationEnds.

Lemma enough_passes_room room break_us :
  0 < break_us → room < (Z.of_nat (enough_passes room break_us) - 1) * break_us.
Proof.
  intros Hbreak. unfold enough_passes.
  destruct (Z.neg_nonneg_cases room) as [Hneg|Hpos].
  - pose proof (Z.div_lt_upper_bound room break_us 0 Hbreak) as Hdiv. nia.
  - pose proof (Z.div_pos room break_us Hpos Hbreak).
    pose proof (Z.mod_pos_bound room break_us Hbreak).
    pose proof (Z.div_mod room break_us). nia.
Qed.

Lemma initial_hours_keys {H : Type} `{HourOps H} plan active : ∀ (m hours : gmap string H),
  initial_hours plan active m = Done hours →
  ∀ n, is_Some (hours !! n) ↔ is_Some (m !! n) ∨ n ∈ name <$> active.
Proof.
  induction active as [|s active IH]; intros m hours; simpl.
  - intros [= <-] n. split; [by left|]. intros [?|Hn]; [done|]. by apply elem_of_nil in Hn.
  - destruct (plan !! name s) as [e|]; [|done]. intros Hrun n.
    rewrite (IH _ _ Hrun n), elem_of_cons.
    destruct (decide (name s = n)) as [<-|Hne].
    + rewrite lookup_insert_eq. split; [intros _; right; by left|intros _; left; by eexists].
    + rewrite lookup_insert_ne by done. intuition congruence.
Qed.

Section TimetableEnds.
Context {H : Type} `{HourLaws H}.
Variable subjects : list subject.
Variable plan : gmap string plan_entry.
Variable today : Z.
Variables start_hour end_hour : Z.
Variable block_hours : H.
Variable break_minutes : Z.
Variable order_pref : string.
Hypothesis plan_complete : ∀ s, s ∈ subjects → is_Some (plan !! name s).
Hypothesis start_in_range : 0 ≤ start_hour ≤ 23.
Hypothesis end_in_range : 0 ≤ end_hour ≤ 23.
Hypothesis block_positive : h_le0 block_hours = false.
Hypothesis break_positive : 0 < break_minutes.

Local Abbreviation fuel :=
  (enough_passes ((end_hour - start_hour) * us_per_hour - timedelta_hours block_hours)
     (break_minutes * us_per_minute)).

Lemma schedule_day_ends day_offset :
  ∃ entry, schedule_day fuel subjects plan today start_hour end_hour block_hours
             break_minutes order_pref day_offset = Done entry.
Proof.
  unfold schedule_day.
  destruct (active_on subjects (today + Z.of_nat day_offset)) as [|s0 active] eqn:Heq;
    [by eexists|]. rewrite <- Heq.
  assert (∀ s, s ∈ active_on subjects (today + Z.of_nat day_offset) → s ∈ subjects)
    as Hsub by (intros s Hs; by apply active_on_elem in Hs as [_ ?]).
  destruct (initial_hours_Done subjects plan plan_complete _ Hsub ∅) as [hours Hhours].
  rewrite Hhours, !time_of_hour_in_range by done. cbn [mbind outcome_bind].
  destruct (while_loop_ends block_hours break_minutes (end_hour * us_per_hour)
              block_positive break_positive
              (day_order order_pref (fixed_order subjects) day_offset
                 (active_on subjects (today + Z.of_nat day_offset)))
              fuel
              {| hours_left := hours; current_time := start_hour * us_per_hour;
                 day_schedule := [] |}) as [st ->].
  - intros n. simpl.
    rewrite (day_order_perm order_pref _ day_offset _ (active_on_fixed subjects _)).
    rewrite (initial_hours_keys _ _ _ _ Hhours n), lookup_empty.
    split; [by right|]. intros [[? [=]]|?]. done.
  - unfold enough_passes. lia.
  - simpl. pose proof (enough_passes_room
      ((end_hour - start_hour) * us_per_hour - timedelta_hours block_hours)
      (break_minutes * us_per_minute)) as Hroom.
    unfold us_per_minute in *. lia.
  - simpl. by eexists.
Qed.

Lemma days_loop_ends offsets :
  ∃ timetable, days_loop fuel subjects plan today start_hour end_hour block_hours
                 break_minutes order_pref offsets = Done timetable.
Proof.
  induction offsets as [|k offsets [tt IH]]; simpl; [by eexists|].
  destruct (schedule_day_ends k) as [entry ->]. simpl. rewrite IH. simpl. by eexists.
Qed.

End TimetableEnds.

(** With a positive break, a positive block, hours in range and a plan entry
    for every subject, [generate_timetable] returns; [enough_passes] bounds
    the passes of the allocation loop on each day. *)
Lemma generate_timetable_ends {H : Type} `{HourLaws H} subjects plan today
    start_hour end_hour (block_hours : H) break_minutes order_pref :
  (∀ s, s ∈ subjects → is_Some (plan !! name s)) →
  0 ≤ start_hour ≤ 23 → 0 ≤ end_hour ≤ 23 →
  h_le0 block_hours = false → 0 < break_minutes →
  ∃ result,
    generate_timetable
      (enough_passes ((end_hour - start_hour) * us_per_hour - timedelta_hours block_hours)
         (break_minutes * us_per_minute))
      subjects plan today start_hour end_hour block_hours break_minutes order_pref
    = Done result.
Proof.
  intros Hplan Hstart Hend Hblock Hbreak.
  unfold generate_timetable. destruct subjects as [|s rest] eqn:Hsubjects; [by eexists|].
  rewrite <- Hsubjects in *. case_decide; [by eexists|].
  destruct (days_loop_ends subjects plan today start_hour end_hour block_hours
              break_minutes order_pref Hplan Hstart Hend Hblock Hbreak
              (seq 0 (Z.to_nat (days_between today
                 (foldl Z.max (deadline s) (deadline <$> rest)) + 1)))) as [tt ->].
  simpl. by eexists.
Qed.

(** ** Further runs: the three policies, and a deadline that passes *)

Example two_subjects_fixed :
  printed (generate_timetable (H := Q) 3 two_subjects two_plan 739047 9 12 1%Q 0 "A") =
  Some [ (739047, ["09:00 - 10:00 : Math"; "10:00 - 11:00 : Art"; "11:00 - 12:00 : Math"]);
         (739048, ["09:00 - 10:00 : Math"; "10:00 - 11:00 : Art"; "11:00 - 12:00 : Math"]);
         (739049, ["09:00 - 10:00 : Math"; "10:00 - 11:00 : Math"]) ].
Proof. vm_compute. reflexivity. Qed.

Example two_subjects_rotate :
  printed (generate_timetable (H := Q) 3 two_subjects two_plan 739047 9 12 1%Q 0 "B") =
  Some [ (739047, ["09:00 - 10:00 : Math"; "10:00 - 11:00 : Art"; "11:00 - 12:00 : Math"]);
         (739048, ["09:00 - 10:00 : Art"; "10:00 - 11:00 : Math"; "11:00 - 12:00 : Math"]);
         (739049, ["09:00 - 10:00 : Math"; "10:00 - 11:00 : Math"]) ].
Proof. vm_compute. reflexivity. Qed.

Example two_subjects_urgency :
  printed (generate_timetable (H := Q) 3 two_subjects two_plan 739047 9 12 (3 # 2)%Q 15 "C") =
  Some [ (739047, ["09:00 - 10:00 : Art"; "10:15 - 11:45 : Math"]);
         (739048, ["09:00 - 10:00 : Art"; "10:15 - 11:45 : Math"]);
         (739049, ["09:00 - 10:30 : Math"]) ].
Proof. vm_compute. reflexivity. Qed.

(** * Part III: further properties of the code *)

(** ** The clash resolver moves a deadline to the next free day *)

Lemma next_free_loop_least fuel used : ∀ d x,
  d ≤ x < next_free_loop fuel used d → x ∈ used.
Proof.
  induction fuel as [|fuel IH]; intros d x; simpl; [lia|].
  destruct (decide (d ∈ used)) as [Hin|Hout]; [|lia].
  intros Hx. destruct (decide (x = d)) as [->|Hne]; [done|].
  apply (IH (d + 1)). lia.
Qed.

Lemma next_free_loop_le fuel used : ∀ d,
  next_free_loop fuel used d ≤ d + Z.of_nat (size (ahead used d)).
Proof.
  induction fuel as [|fuel IH]; intros d; simpl; [lia|].
  destruct (decide (d ∈ used)) as [Hin|Hout]; [|lia].
  pose proof (subset_size _ _ (later_dates_shrink used d Hin)).
  pose proof (IH (d + 1)). lia.
Qed.

Lemma next_free_least used d x : d ≤ x < next_free used d → x ∈ used.
Proof. apply next_free_loop_least. Qed.

Lemma next_free_le used d : next_free used d ≤ d + Z.of_nat (size used).
Proof.
  pose proof (next_free_loop_le (S (size used)) used d).
  pose proof (enough_fuel used d). unfold next_free. lia.
Qed.

Lemma size_visited (P : gset nat) (n i : nat) :
  (∀ j, j ∈ P → (j < n)%nat) → i ∉ P → (i < n)%nat → (size P < n)%nat.
Proof.
  intros Hrange Hi Hlt.
  assert (({[i]} ∪ P : gset nat) ⊆ list_to_set (seq 0 n)) as Hsub.
  { intros j [->%elem_of_singleton|Hj]%elem_of_union; apply elem_of_list_to_set, elem_of_seq.
    - lia.
    - specialize (Hrange j Hj). lia. }
  apply subseteq_size in Hsub.
  rewrite size_union in Hsub by (intros j ->%elem_of_singleton; done).
  rewrite size_singleton, size_list_to_set, length_seq in Hsub by apply NoDup_seq. lia.
Qed.

Lemma packed_init subs : packed subs ∅ (subs, ∅).
Proof.
  split; simpl.
  - intros i Hi. by apply not_elem_of_empty in Hi.
  - done.
  - intros i ? ? Hi. by apply not_elem_of_empty in Hi.
  - intros i ? ? Hi. by apply not_elem_of_empty in Hi.
Qed.

Lemma packed_visit subs P acc i :
  resolved subs P acc → packed subs P acc → i ∉ P → (i < length subs)%nat →
  packed subs ({[i]} ∪ P) (visit acc i).
Proof.
  intros [Hlen Hframe Hused Hdist] [Hrange Hsize Hgaps Hshift] HiP Hlt. unfold visit.
  destruct (acc.1 !! i) as [s|] eqn:Hs.
  2: { apply lookup_ge_None in Hs. lia. }
  destruct (Hframe i s Hs) as (s0 & Hs0 & _ & _ & _ & _ & Hsame).
  specialize (Hsame HiP). subst s0.
  pose proof (next_free_least acc.2 (deadline s)) as Hleast.
  pose proof (next_free_le acc.2 (deadline s)) as Hle.
  pose proof (next_free_ge acc.2 (deadline s)) as Hge.
  pose proof (size_visited P (length subs) i Hrange HiP Hlt) as Hfew.
  cbv zeta. generalize dependent (next_free acc.2 (deadline s)). intros d Hleast Hle Hge.
  assert (i < length acc.1)%nat as Hlt' by lia.
  split; simpl.
  - intros j [->%elem_of_singleton|Hj]%elem_of_union; [done|by apply Hrange].
  - rewrite (size_union {[i]} P) by (intros j ->%elem_of_singleton; done).
    rewrite size_singleton, (size_union_alt {[d]} acc.2), size_singleton.
    pose proof (subseteq_size (acc.2 ∖ {[d]}) acc.2) as Hdiff.
    assert (acc.2 ∖ {[d]} ⊆ acc.2) as Hsub by (intros y [? _]%elem_of_difference; done).
    specialize (Hdiff Hsub). lia.
  - intros j sj sj' Hj Hsj Hsj' x Hx. apply elem_of_union.
    destruct (decide (j = i)) as [->|Hne].
    + rewrite list_lookup_insert_eq in Hsj' by done. injection Hsj' as <-.
      rewrite Hs0 in Hsj. injection Hsj as <-. simpl in Hx.
      destruct (decide (x = d)) as [->|Hxd]; [left; by apply elem_of_singleton|].
      right. apply Hleast. lia.
    + rewrite list_lookup_insert_ne in Hsj' by done.
      right. apply (Hgaps j sj sj'); [visited|done..].
  - intros j sj sj' Hj Hsj Hsj'. destruct (decide (j = i)) as [->|Hne].
    + rewrite list_lookup_insert_eq in Hsj' by done. injection Hsj' as <-.
      rewrite Hs0 in Hsj. injection Hsj as <-. simpl. lia.
    + rewrite list_lookup_insert_ne in Hsj' by done.
      apply (Hshift j sj sj'); [visited|done..].
Qed.

Lemma packed_fold subs order :
  ∀ P acc, resolved subs P acc → packed subs P acc → NoDup order →
    (∀ i, i ∈ order → (i ∉ P) ∧ (i < length subs)%nat) →
    packed subs (list_to_set order ∪ P) (foldl visit acc order).
Proof.
  induction order as [|i order IH]; intros P acc Hres Hpacked Hnd Hfresh; simpl.
  - by rewrite (left_id_L ∅ (∪)).
  - apply NoDup_cons in Hnd as [Hi Hnd].
    destruct (Hfresh i) as [HiP Hlt]; [by left|].
    replace ({[i]} ∪ list_to_set order ∪ P) with (list_to_set order ∪ ({[i]} ∪ P) : gset nat)
      by (apply set_eq; intros j; visited).
    apply IH; [by apply resolved_visit|by apply packed_visit|done|].
    intros j Hj. destruct (Hfresh j) as [? ?]; [by right|]. split; [|done].
    apply not_elem_of_union. split; [|done].
    apply not_elem_of_singleton. by intros ->.
Qed.

Lemma rearrange_packed subs :
  packed subs (list_to_set (seq 0 (length subs)))
    (foldl visit (subs, ∅) (visit_order subs)).
Proof.
  rewrite <- (list_to_set_perm_L _ _ (visit_order_perm subs)).
  rewrite <- (right_id_L ∅ (∪) (list_to_set (visit_order subs))).
  apply packed_fold.
  - apply resolved_init.
  - apply packed_init.
  - rewrite visit_order_perm. apply NoDup_seq.
  - intros i Hi. rewrite visit_order_perm in Hi. apply elem_of_seq in Hi.
    split; [apply not_elem_of_empty|lia].
Qed.

Lemma rearrange_schedule_dates subs x :
  x ∈ (foldl visit (subs, ∅) (visit_order subs)).2 ↔
  ∃ j sj, rearrange_schedule subs !! j = Some sj ∧ deadline sj = x.
Proof.
  destruct (rearrange_resolved subs) as [_ _ Hused _]. rewrite Hused. split.
  - intros (j & sj & _ & ? & ?). by exists j, sj.
  - intros (j & sj & Hj & ?). exists j, sj. split; [|done].
    apply elem_of_list_to_set, elem_of_seq. apply lookup_lt_Some in Hj.
    rewrite rearrange_schedule_length in Hj. lia.
Qed.

(** X1. When no two subjects share a deadline ([detect_clashes] is false),
    [rearrange_schedule] leaves the list exactly as it is. *)
Theorem rearrange_schedule_without_clash (subs : list subject) :
  detect_clashes subs = false → rearrange_schedule subs = subs.
Proof. intros Hclash. by apply rearrange_schedule_noop, detect_clashes_false. Qed.

Lemma rearrange_schedule_without_clash_witness :
  detect_clashes two_subjects = false ∧ rearrange_schedule two_subjects = two_subjects.
Proof.
  split; [reflexivity|]. apply (rearrange_schedule_without_clash two_subjects). reflexivity.
Defined.

(** X2. A deadline that [rearrange_schedule] moves goes to the next free day:
    every day from the subject's old deadline up to the day before its new
    one is, in the result, the deadline of another subject. *)
Theorem rearrange_schedule_next_free_day (subs : list subject) (i : nat) (s s' : subject) :
  subs !! i = Some s → rearrange_schedule subs !! i = Some s' →
  ∀ x, deadline s ≤ x < deadline s' →
    ∃ j sj, j ≠ i ∧ rearrange_schedule subs !! j = Some sj ∧ deadline sj = x.
Proof.
  intros Hs Hs' x Hx. destruct (rearrange_packed subs) as [_ _ Hgaps _].
  assert (x ∈ (foldl visit (subs, ∅) (visit_order subs)).2) as Hin.
  { apply (Hgaps i s s'); [|done|done|lia].
    apply elem_of_list_to_set, elem_of_seq. apply lookup_lt_Some in Hs. lia. }
  apply rearrange_schedule_dates in Hin as (j & sj & Hj & Hd).
  exists j, sj. split; [|done]. intros ->. rewrite Hs' in Hj. injection Hj as <-. lia.
Qed.

Lemma rearrange_schedule_next_free_day_witness :
  clash_example !! 1%nat = Some (Subject "History" 1 739048 80) ∧
  rearrange_schedule clash_example !! 1%nat = Some (Subject "History" 1 739049 80) ∧
  ∀ x, 739048 ≤ x < 739049 →
    ∃ j sj, j ≠ 1%nat ∧ rearrange_schedule clash_example !! j = Some sj ∧ deadline sj = x.
Proof.
  split; [reflexivity|]. split; [vm_compute; reflexivity|].
  apply (rearrange_schedule_next_free_day clash_example 1
           (Subject "History" 1 739048 80) (Subject "History" 1 739049 80));
    [reflexivity|vm_compute; reflexivity].
Defined.

(** X3. [rearrange_schedule] moves no deadline by as many days as there are
    subjects: with [n] subjects a deadline moves by [n - 1] days at most. *)
Theorem rearrange_schedule_shift_bound (subs : list subject) (i : nat) (s s' : subject) :
  subs !! i = Some s → rearrange_schedule subs !! i = Some s' →
  deadline s' < deadline s + Z.of_nat (length subs).
Proof.
  intros Hs Hs'. destruct (rearrange_packed subs) as [_ _ _ Hshift].
  apply (Hshift i s s'); [|done|done].
  apply elem_of_list_to_set, elem_of_seq. apply lookup_lt_Some in Hs. lia.
Qed.

Lemma rearrange_schedule_shift_bound_witness :
  clash_example !! 1%nat = Some (Subject "History" 1 739048 80) ∧
  rearrange_schedule clash_example !! 1%nat = Some (Subject "History" 1 739049 80) ∧
  739049 < 739048 + Z.of_nat (length clash_example).
Proof.
  split; [reflexivity|]. split; [vm_compute; reflexivity|].
  apply (rearrange_schedule_shift_bound clash_example 1
           (Subject "History" 1 739048 80) (Subject "History" 1 739049 80));
    [reflexivity|vm_compute; reflexivity].
Defined.

(** X4. Every day that was some subject's deadline before
    [rearrange_schedule] is still some subject's deadline after it. *)
Theorem rearrange_schedule_keeps_dates (subs : list subject) (s : subject) :
  s ∈ subs → ∃ s', s' ∈ rearrange_schedule subs ∧ deadline s' = deadline s.
Proof.
  intros [i Hs]%list_elem_of_lookup_1.
  destruct (rearrange_packed subs) as [_ _ Hgaps _].
  assert (is_Some (rearrange_schedule subs !! i)) as [s' Hs'].
  { apply lookup_lt_is_Some. rewrite rearrange_schedule_length. by eapply lookup_lt_Some. }
  destruct (rearrange_schedule_lookup subs i s' Hs') as (s0 & Hs0 & _ & _ & _ & Hle).
  rewrite Hs in Hs0. injection Hs0 as <-.
  assert (deadline s ∈ (foldl visit (subs, ∅) (visit_order subs)).2) as Hin.
  { apply (Hgaps i s s'); [|done|done|lia].
    apply elem_of_list_to_set, elem_of_seq. apply lookup_lt_Some in Hs. lia. }
  apply rearrange_schedule_dates in Hin as (j & sj & Hj & Hd).
  exists sj. split; [by eapply list_elem_of_lookup_2|done].
Qed.

Lemma rearrange_schedule_keeps_dates_witness :
  Subject "History" 1 739048 80 ∈ clash_example ∧
  ∃ s', s' ∈ rearrange_schedule clash_example ∧
        deadline s' = deadline (Subject "History" 1 739048 80).
Proof.
  assert (Subject "History" 1 739048 80 ∈ clash_example) as Hin by (right; left).
  split; [exact Hin|].
  exact (rearrange_schedule_keeps_dates clash_example _ Hin).
Defined.

(** ** The clash resolver keeps the order of the deadlines *)

Section SortedLex.
Context {A : Type} (key : A → Z) (P : relation A).

Local Abbreviation lex := (λ x y, key x < key y ∨ (key x = key y ∧ P x y)).

Lemma insert_by_lex x l :
  StronglySorted lex l → Forall (P x) l → StronglySorted lex (insert_by key x l).
Proof.
  induction 1 as [|y l Hs IH Hall]; simpl; intros HP.
  - repeat constructor.
  - apply Forall_cons in HP as [HPy HPl].
    destruct (Z.leb_spec (key x) (key y)) as [Hle|Hlt].
    + constructor; [by constructor|]. constructor.
      * destruct (decide (key x = key y)); [right; done|left; lia].
      * rewrite Forall_forall in Hall, HPl |- *. intros z Hz.
        specialize (Hall z Hz). specialize (HPl z Hz). simpl in Hall.
        destruct (decide (key x = key z)); [right; done|left; lia].
    + constructor; [by apply IH|].
      rewrite insert_by_perm. constructor; [left; lia|done].
Qed.

Lemma sorted_lex l : StronglySorted P l → StronglySorted lex (sorted key l).
Proof.
  induction 1 as [|x l Hs IH Hall]; [constructor|].
  change (StronglySorted lex (insert_by key x (sorted key l))).
  apply insert_by_lex; [done|]. by rewrite sorted_perm.
Qed.
End SortedLex.

Lemma seq_sorted j n : StronglySorted lt (seq j n).
Proof.
  revert j. induction n as [|n IH]; intros j; simpl; constructor; [apply IH|].
  apply Forall_forall. intros k Hk%elem_of_seq. lia.
Qed.

Lemma visit_order_sorted subs : StronglySorted (due_before subs) (visit_order subs).
Proof. apply (sorted_lex (deadline_at subs) lt), seq_sorted. Qed.

Lemma reachable_next_free used key d u :
  reachable used key → key ≤ d → u ∈ used → u < next_free used d.
Proof.
  intros Hreach Hkey Hu. pose proof (next_free_not_used used d) as Hfree.
  pose proof (next_free_ge used d) as Hge.
  destruct (Z.lt_ge_cases u (next_free used d)) as [?|Hle]; [done|].
  destruct (Hreach u Hu) as (k & Hk & Hrun). exfalso. apply Hfree, Hrun. lia.
Qed.

Lemma reachable_insert used key d :
  reachable used key → key ≤ d → reachable ({[next_free used d]} ∪ used) d.
Proof.
  intros Hreach Hkey u [->%elem_of_singleton|Hu]%elem_of_union.
  - exists d. split; [lia|]. intros z Hz. apply elem_of_union.
    destruct (decide (z = next_free used d)) as [->|Hne]; [left; by apply elem_of_singleton|].
    right. apply (next_free_least used d). lia.
  - destruct (Hreach u Hu) as (k & Hk & Hrun). exists k. split; [lia|].
    intros z Hz. apply elem_of_union. right. by apply Hrun.
Qed.

Lemma visit_other acc i j : i ≠ j → (visit acc i).1 !! j = acc.1 !! j.
Proof.
  intros Hne. unfold visit. destruct (acc.1 !! i); [|done].
  simpl. by rewrite list_lookup_insert_ne.
Qed.

Lemma visit_used_grows acc i u : u ∈ acc.2 → u ∈ (visit acc i).2.
Proof.
  intros Hu. unfold visit. destruct (acc.1 !! i); [|done]. simpl.
  apply elem_of_union. by right.
Qed.

Lemma visit_all_other order : ∀ acc j,
  j ∉ order → (foldl visit acc order).1 !! j = acc.1 !! j.
Proof.
  induction order as [|i order IH]; intros acc j Hj; simpl; [done|].
  apply not_elem_of_cons in Hj as [Hne Hj].
  rewrite IH by done. by apply visit_other.
Qed.

(** Visiting in the order of the deadlines hands out increasing dates. *)
Lemma visit_all_increasing subs order : ∀ P acc key,
  resolved subs P acc → reachable acc.2 key →
  StronglySorted (key_le (deadline_at subs)) order →
  Forall (λ i, key ≤ deadline_at subs i ∧ (i ∉ P) ∧ (i < length subs)%nat) order →
  NoDup order →
  StronglySorted
    (λ i j, deadline_at (foldl visit acc order).1 i < deadline_at (foldl visit acc order).1 j)
    order ∧
  Forall (λ i, ∀ u, u ∈ acc.2 → u < deadline_at (foldl visit acc order).1 i) order.
Proof.
  induction order as [|i order IH]; intros P acc key Hres Hreach Hsorted Hall Hnd; simpl.
  - split; constructor.
  - apply StronglySorted_cons in Hsorted as [Hhead Hsorted].
    apply Forall_cons in Hall as [(Hkey & HiP & Hlt) Hall].
    apply NoDup_cons in Hnd as [Hi Hnd].
    pose proof Hres as [Hlen Hframe _ _].
    assert (is_Some (acc.1 !! i)) as [s Hs] by (apply lookup_lt_is_Some; lia).
    destruct (Hframe i s Hs) as (s0 & Hs0 & _ & _ & _ & _ & Hsame).
    specialize (Hsame HiP). subst s0.
    assert (deadline_at subs i = deadline s) as Hkey_i by (unfold deadline_at; by rewrite Hs0).
    rewrite Hkey_i in Hkey.
    assert ((visit acc i).2 = {[next_free acc.2 (deadline s)]} ∪ acc.2) as Hused'
      by (unfold visit; by rewrite Hs).
    assert (deadline_at (foldl visit (visit acc i) order).1 i = next_free acc.2 (deadline s))
      as Hnew.
    { unfold deadline_at. rewrite visit_all_other by done. unfold visit. rewrite Hs. simpl.
      by rewrite list_lookup_insert_eq by lia. }
    destruct (IH ({[i]} ∪ P) (visit acc i) (deadline s)) as [IHsorted IHall].
    + by apply resolved_visit.
    + rewrite Hused'. by apply (reachable_insert _ key).
    + done.
    + rewrite Forall_forall in Hall, Hhead |- *. intros j Hj.
      destruct (Hall j Hj) as (_ & HjP & Hjlt). specialize (Hhead j Hj).
      unfold key_le in Hhead. rewrite Hkey_i in Hhead. split; [done|]. split; [|done].
      apply not_elem_of_union. split; [|done]. apply not_elem_of_singleton. by intros ->.
    + done.
    + rewrite Forall_forall in IHall. split.
      * constructor; [done|]. apply Forall_forall. intros j Hj. rewrite Hnew.
        apply (IHall j Hj). rewrite Hused'. apply elem_of_union. left.
        by apply elem_of_singleton.
      * constructor.
        -- intros u Hu. rewrite Hnew. by eapply reachable_next_free.
        -- apply Forall_forall. intros j Hj u Hu. apply (IHall j Hj).
           by apply visit_used_grows.
Qed.

Lemma due_before_key_le subs order :
  StronglySorted (due_before subs) order →
  StronglySorted (key_le (deadline_at subs)) order.
Proof.
  induction 1 as [|i order Hs IH Hall]; constructor; [done|].
  eapply Forall_impl; [exact Hall|]. unfold due_before, key_le. simpl. intros; lia.
Qed.

Lemma rearrange_increasing subs :
  StronglySorted
    (λ i j, deadline_at (rearrange_schedule subs) i < deadline_at (rearrange_schedule subs) j)
    (visit_order subs).
Proof.
  pose proof (visit_order_sorted subs) as Hsorted.
  pose proof (visit_order_perm subs) as Hperm.
  unfold rearrange_schedule.
  destruct (visit_order subs) as [|i0 order] eqn:Horder; [constructor|].
  rewrite <- Horder in *.
  apply (visit_all_increasing subs (visit_order subs) ∅ (subs, ∅) (deadline_at subs i0)).
  - apply resolved_init.
  - intros u Hu. by apply not_elem_of_empty in Hu.
  - by apply due_before_key_le.
  - apply due_before_key_le in Hsorted. rewrite Horder in Hsorted |- *.
    apply StronglySorted_cons in Hsorted as [Hhead _].
    assert (∀ i, i ∈ i0 :: order → (i ∉ (∅ : gset nat)) ∧ (i < length subs)%nat) as Hin.
    { intros i Hi. rewrite <- Horder, Hperm in Hi. apply elem_of_seq in Hi.
      split; [apply not_elem_of_empty|lia]. }
    constructor.
    + split; [lia|]. apply Hin. by left.
    + rewrite Forall_forall in Hhead |- *. intros i Hi. split; [by apply Hhead|].
      apply Hin. by right.
  - rewrite Hperm. apply NoDup_seq.
Qed.



(** ** The two views of a clash *)

Lemma date_map_lookup subs d :
  date_map subs !! d =
    if decide (due_on subs d = []) then None else Some (name <$> due_on subs d).
Proof.
  unfold date_map, due_on. induction subs as [|s subs IH] using rev_ind; [done|].
  rewrite foldl_app, filter_app. simpl. rewrite filter_cons, filter_nil.
  destruct (decide (deadline s = d)) as [<-|Hne].
  - rewrite lookup_insert_eq, IH.
    rewrite (decide_False (P := _ ++ [s] = [])) by (by intros [_ ?]%app_eq_nil).
    rewrite fmap_app. by case_decide as Hnil; [rewrite Hnil|].
  - by rewrite lookup_insert_ne, IH, app_nil_r.
Qed.

Lemma NoDup_fmap_due_on subs :
  NoDup (deadline <$> subs) ↔ ∀ d, (length (due_on subs d) ≤ 1)%nat.
Proof.
  unfold due_on. induction subs as [|s subs IH]; simpl.
  - split; [intros _ d; simpl; lia|constructor].
  - rewrite NoDup_cons, IH. split.
    + intros [Hs Hall] d. rewrite filter_cons. specialize (Hall d).
      destruct (decide (deadline s = d)) as [<-|Hne]; [|done].
      destruct (filter _ subs) as [|s' rest] eqn:Hfilter; [simpl; lia|].
      exfalso. apply Hs.
      assert (s' ∈ filter (λ s0, deadline s0 = deadline s) subs) as Hin
        by (rewrite Hfilter; by left).
      apply list_elem_of_filter in Hin as [<- Hin]. by apply list_elem_of_fmap_2.
    + intros Hall. split.
      * intros (s' & Hd & Hin)%list_elem_of_fmap.
        specialize (Hall (deadline s)). rewrite filter_cons, decide_True in Hall by done.
        assert (s' ∈ filter (λ s0, deadline s0 = deadline s) subs) as Hin'
          by (by apply list_elem_of_filter).
        destruct (filter _ subs); [by apply elem_of_nil in Hin'|simpl in Hall; lia].
      * intros d. specialize (Hall d). rewrite filter_cons in Hall.
        destruct (decide (deadline s = d)); [simpl in Hall; lia|done].
Qed.

Lemma conflicts_lookup subs d names :
  conflicts subs !! d = Some names ↔
  names = name <$> due_on subs d ∧ (1 < length (due_on subs d))%nat.
Proof.
  unfold conflicts. rewrite map_lookup_filter_Some, date_map_lookup. simpl.
  case_decide as Hnil.
  - rewrite Hnil. simpl. split; [by intros [? _]|intros [_ ?]; lia].
  - split.
    + intros [[= <-] Hlen]. by rewrite length_fmap in Hlen.
    + intros [-> Hlen]. by rewrite length_fmap.
Qed.

Lemma conflicts_empty subs : conflicts subs = ∅ ↔ detect_clashes subs = false.
Proof.
  rewrite detect_clashes_false, NoDup_fmap_due_on, map_empty. split.
  - intros Hnone d. destruct (Nat.le_gt_cases (length (due_on subs d)) 1) as [?|Hgt]; [done|].
    assert (conflicts subs !! d = Some (name <$> due_on subs d)) as Hsome
      by (by apply conflicts_lookup).
    by rewrite Hnone in Hsome.
  - intros Hall d. destruct (conflicts subs !! d) as [names|] eqn:Hd; [|done].
    apply conflicts_lookup in Hd as [_ Hlen]. specialize (Hall d). lia.
Qed.

(** X6. [handle_clashes] and [detect_clashes] agree on what a clash is:
    [conflicts] is empty exactly when [detect_clashes] is false, and its entry
    for a day lists, in the order of the store, the names of the subjects due
    that day, of which there are two or more. *)
Theorem conflicts_detect_clashes (subs : list subject) :
  (conflicts subs = ∅ ↔ detect_clashes subs = false) ∧
  (∀ d names, conflicts subs !! d = Some names ↔
     names = name <$> due_on subs d ∧ (1 < length (due_on subs d))%nat).
Proof. split; [apply conflicts_empty|apply conflicts_lookup]. Qed.

(** ** Clash handling and the commands that succeed *)

Lemma handle_clashes_yes_clash_free st :
  detect_clashes (subjects (handle_clashes "yes" st)) = false.
Proof.
  unfold handle_clashes. case_decide as Hnone; [by apply conflicts_empty|].
  rewrite decide_True by done. simpl.
  apply detect_clashes_false, rearrange_schedule_NoDup.
Qed.

Lemma handle_clashes_saved choice st :
  saved st = subjects st →
  saved (handle_clashes choice st) = subjects (handle_clashes choice st).
Proof. intros Hsaved. unfold handle_clashes. by repeat case_decide. Qed.


Section SuccessfulCommands.
Variable str_split : string → list string.
Variable str_lower : string → string.
Variable strptime_date : string → option Z.
Variable int_of_str : string → option Z.
Variable difficulty_map : gmap string Z.

Local Abbreviation add :=
  (add_subject_command str_split str_lower strptime_date int_of_str difficulty_map).
Local Abbreviation reschedule := (reschedule_subject str_split strptime_date).

Lemma add_saved cmd choice st :
  saved st = subjects st →
  saved (add cmd choice st).2 = subjects (add cmd choice st).2.
Proof.
  intros Hsaved. unfold add_subject_command.
  destruct (str_split cmd) as [|? [|? [|nm [|ds [|dl [|ms [|? ?]]]]]]]; try done.
  destruct (difficulty_map !! str_lower ds); [|done].
  destruct (parse_date strptime_date dl); [|done].
  destruct (int_of_str ms); [|done].
  simpl. destruct (detect_clashes _); [|done]. by apply handle_clashes_saved.
Qed.

Lemma reschedule_saved cmd st :
  saved st = subjects st →
  saved (reschedule cmd st).2 = subjects (reschedule cmd st).2.
Proof.
  intros Hsaved. unfold reschedule_subject.
  destruct (str_split cmd) as [|? [|nm [|ds [|? ?]]]]; try done.
  destruct (parse_date strptime_date ds); [|done].
  by destruct (list_find _ _) as [[i sub]|].
Qed.

(** What a well-formed [add subject] line does. *)
Lemma add_success cmd choice st a b nm ds dl ms diff d m :
  str_split cmd = [a; b; nm; ds; dl; ms] →
  difficulty_map !! str_lower ds = Some diff →
  parse_date strptime_date dl = Some d →
  int_of_str ms = Some m →
  add cmd choice st =
    (Added nm,
     let st1 := {| subjects := subjects st ++ [Subject nm diff d m];
                   saved := subjects st ++ [Subject nm diff d m] |} in
     if detect_clashes (subjects st1) then handle_clashes choice st1 else st1).
Proof. intros Hsplit Hdiff Hdate Hmarks. unfold add_subject_command. by rewrite Hsplit, Hdiff, Hdate, Hmarks. Qed.
End SuccessfulCommands.





Lemma handle_clashes_deadline choice st i s :
  subjects st !! i = Some s →
  ∃ s', subjects (handle_clashes choice st) !! i = Some s' ∧ name s' = name s ∧
        difficulty s' = difficulty s ∧ marks s' = marks s ∧ deadline s ≤ deadline s'.
Proof.
  intros Hs. unfold handle_clashes.
  repeat case_decide; simpl; try (exists s; repeat split; first [done|lia]).
  assert (is_Some (rearrange_schedule (subjects st) !! i)) as [s' Hs'].
  { apply lookup_lt_is_Some. rewrite rearrange_schedule_length. by eapply lookup_lt_Some. }
  destruct (rearrange_schedule_lookup _ _ _ Hs') as (s0 & Hs0 & ? & ? & ? & ?).
  rewrite Hs in Hs0. injection Hs0 as <-. by exists s'.
Qed.

(** X10. [add subject] never removes, renames or reorders a stored subject:
    whatever the command line and the answer, a subject stored at a position
    is still there afterwards with its name, difficulty and marks, and its
    deadline has not moved to an earlier day. *)
Theorem add_keeps_stored_subjects
    (str_split : string → list string) (str_lower : string → string)
    (strptime_date int_of_str : string → option Z) (difficulty_map : gmap string Z)
    (cmd choice : string) (st : store) (i : nat) (s : subject) :
  subjects st !! i = Some s →
  ∃ s',
    subjects (add_subject_command str_split str_lower strptime_date int_of_str
                difficulty_map cmd choice st).2 !! i = Some s' ∧
    name s' = name s ∧ difficulty s' = difficulty s ∧ marks s' = marks s ∧
    deadline s ≤ deadline s'.
Proof.
  intros Hs.
  assert (∃ s', subjects st !! i = Some s' ∧ name s' = name s ∧
            difficulty s' = difficulty s ∧ marks s' = marks s ∧ deadline s ≤ deadline s')
    as Hsame by (exists s; repeat split; first [done|lia]).
  unfold add_subject_command.
  destruct (str_split cmd) as [|? [|? [|nm [|ds [|dl [|ms [|? ?]]]]]]]; try done.
  destruct (difficulty_map !! str_lower ds) as [diff|]; [|done].
  destruct (parse_date strptime_date dl) as [d|]; [|done].
  destruct (int_of_str ms) as [m|]; [|done].
  cbn [snd save_subjects subjects].
  assert ((subjects st ++ [Subject nm diff d m]) !! i = Some s) as Hs1.
  { rewrite lookup_app_l; [done|]. by eapply lookup_lt_Some. }
  destruct (detect_clashes _).
  - by apply handle_clashes_deadline.
  - exists s. repeat split; first [done|lia].
Qed.

Lemma add_keeps_stored_subjects_witness :
  subjects clash_store !! 1%nat = Some (Subject "History" 1 739048 80) ∧
  ∃ s',
    subjects (add_ascii "add subject Math low 2024-06-10 50" "yes" clash_store).2 !! 1%nat
      = Some s' ∧
    name s' = "History" ∧ difficulty s' = 1 ∧ marks s' = 80 ∧ 739048 ≤ deadline s'.
Proof.
  split; [reflexivity|].
  apply (add_keeps_stored_subjects py_split py_lower py_strptime_date py_int DEFAULT_DIFF
           "add subject Math low 2024-06-10 50" "yes" clash_store 1
           (Subject "History" 1 739048 80)).
  reflexivity.
Defined.

(** X11. [reschedule] acts on the first subject of the given name only: for
    a three-word line whose date parses, if the subject at position [i] bears
    the name and none before it does, the command succeeds, that subject gets
    the new deadline and keeps its other fields, every other position is left
    as it is (also those of later subjects of the same name), and the list is
    written to disk.  No clash check follows. *)
Theorem reschedule_first_match
    (str_split : string → list string) (strptime_date : string → option Z)
    (cmd : string) (st : store) (a nm ds : string) (d : Z) (i : nat) (s : subject) :
  str_split cmd = [a; nm; ds] →
  parse_date strptime_date ds = Some d →
  subjects st !! i = Some s → name s = nm →
  (∀ j s', (j < i)%nat → subjects st !! j = Some s' → name s' ≠ nm) →
  reschedule_subject str_split strptime_date cmd st =
    (Rescheduled nm d,
     {| subjects := <[i := set_deadline s d]> (subjects st);
        saved := <[i := set_deadline s d]> (subjects st) |}) ∧
  <[i := set_deadline s d]> (subjects st) !! i = Some (set_deadline s d) ∧
  (∀ j, j ≠ i → <[i := set_deadline s d]> (subjects st) !! j = subjects st !! j).
Proof.
  intros Hsplit Hdate Hs Hname Hfirst. split; [|split].
  - unfold reschedule_subject. rewrite Hsplit, Hdate.
    assert (list_find (λ s0, name s0 = nm) (subjects st) = Some (i, s)) as ->; [|done].
    apply list_find_Some. split; [done|]. split; [done|].
    intros j s' Hj Hlt. by apply (Hfirst j s').
  - apply list_lookup_insert_eq. by eapply lookup_lt_Some.
  - intros j Hne. by apply list_lookup_insert_ne.
Qed.

Lemma reschedule_first_match_witness :
  py_split "reschedule History 2024-06-10" = ["reschedule"; "History"; "2024-06-10"] ∧
  parse_date py_strptime_date "2024-06-10" = Some 739047 ∧
  subjects clash_store !! 1%nat = Some (Subject "History" 1 739048 80) ∧
  reschedule_ascii "reschedule History 2024-06-10" clash_store =
    (Rescheduled "History" 739047,
     {| subjects := <[1%nat := Subject "History" 1 739047 80]> clash_example;
        saved := <[1%nat := Subject "History" 1 739047 80]> clash_example |}).
Proof.
  split; [reflexivity|]. split; [reflexivity|]. split; [reflexivity|].
  apply (reschedule_first_match py_split py_strptime_date "reschedule History 2024-06-10"
           clash_store "reschedule" "History" "2024-06-10" 739047 1
           (Subject "History" 1 739048 80)); try reflexivity.
  intros [|[|j]] s' Hlt; [|lia|lia]. intros [= <-]. discriminate.
Defined.

(** ** The days of the timetable and the chain of a day's blocks *)

Section AllocationChain.
Context {H : Type} `{HourOps H}.
Variable block_hours : H.
Variable break_minutes : Z.
Variables start_time end_time : Z.

Local Abbreviation loop := (while_loop block_hours break_minutes end_time).
Local Abbreviation pass := (for_pass block_hours break_minutes end_time).
Local Abbreviation linked := (chained start_time (break_minutes * us_per_minute)).

Lemma allocate_chained sub_name h st :
  linked st → linked (allocate block_hours break_minutes sub_name h st).
Proof.
  intros [Hfirst Hnext Hclock]. split; simpl.
  - intros b. destruct (day_schedule st) as [|b0 l] eqn:Hl; simpl.
    + intros [= <-]. simpl. by rewrite Hclock.
    + intros [= <-]. by apply Hfirst.
  - intros i b b' Hb Hb'.
    destruct (decide (S i < length (day_schedule st))%nat) as [Hlt|Hge].
    + rewrite lookup_app_l in Hb, Hb' by lia. by eapply Hnext.
    + assert (S i = length (day_schedule st)) as Hlen.
      { apply lookup_lt_Some in Hb'. rewrite length_app in Hb'. simpl in Hb'. lia. }
      rewrite lookup_app_l in Hb by lia.
      rewrite lookup_app_r, Hlen, Nat.sub_diag in Hb' by lia. injection Hb' as <-. simpl.
      rewrite Hclock, last_lookup.
      replace (pred (length (day_schedule st))) with i by lia. by rewrite Hb.
  - by rewrite last_snoc.
Qed.

Lemma for_pass_chained order : ∀ st st', linked st → pass order st = Done st' → linked st'.
Proof.
  induction order as [|sub_name order IH]; intros st st' Hok; cbn [for_pass].
  - by intros [= <-].
  - destruct (hours_left st !! sub_name) as [h|]; [|done].
    destruct (h_le0 h); [by apply IH|].
    pose proof (allocate_chained sub_name h st Hok) as Hok'.
    destruct (fits _ _ _); [by apply IH|by intros [= <-]].
Qed.

Lemma while_loop_chained fuel order : ∀ st st', linked st → loop fuel order st = Done st' → linked st'.
Proof.
  induction fuel as [|fuel IH]; intros st st' Hok; simpl; [done|].
  destruct (fits _ _ _ && any_hours _); [|by intros [= <-]].
  destruct (pass order st) as [st1| |] eqn:Hpass; simpl; [|done|done].
  pose proof (for_pass_chained order st st1 Hok Hpass) as Hok1.
  destruct (all_done _); [by intros [= <-]|]. by apply IH.
Qed.
End AllocationChain.

Lemma days_loop_dates {H : Type} `{HourOps H} fuel subjects plan today start_hour end_hour
    (block_hours : H) break_minutes order_pref offsets : ∀ timetable,
  days_loop fuel subjects plan today start_hour end_hour block_hours break_minutes
    order_pref offsets = Done timetable →
  (∀ k, k ∈ offsets → active_on subjects (today + Z.of_nat k) ≠ []) →
  timetable.*1 = (λ k, today + Z.of_nat k) <$> offsets.
Proof.
  induction offsets as [|k offsets IH]; intros timetable; simpl.
  - by intros [= <-].
  - destruct (schedule_day _ _ _ _ _ _ _ _ _ k) as [entry| |] eqn:Hday; simpl; [|done|done].
    destruct (days_loop _ _ _ _ _ _ _ _ _ offsets) as [tt| |]; simpl; [|done|done].
    intros [= <-] Hactive.
    destruct (schedule_day_active _ _ _ _ _ _ _ _ _ _ _ Hday) as [blocks ->];
      [apply Hactive; by left|].
    simpl. f_equal. apply IH; [done|]. intros k' Hk'. apply Hactive. by right.
Qed.

(** The timetable, when there is one, with the last day as the latest
    deadline. *)
Lemma generate_timetable_last_day {H : Type} `{HourOps H} fuel subjects plan today
    start_hour end_hour (block_hours : H) break_minutes order_pref timetable :
  generate_timetable fuel subjects plan today start_hour end_hour block_hours
    break_minutes order_pref = Done (Some timetable) →
  ∃ last_day,
    (∃ s, s ∈ subjects ∧ deadline s = last_day) ∧
    (∀ s, s ∈ subjects → deadline s ≤ last_day) ∧
    days_loop fuel subjects plan today start_hour end_hour block_hours break_minutes
      order_pref (seq 0 (Z.to_nat (last_day - today + 1))) = Done timetable.
Proof.
  unfold generate_timetable. destruct subjects as [|s rest] eqn:Hsubjects; [done|].
  rewrite <- Hsubjects. case_decide; [done|].
  destruct (days_loop _ _ _ _ _ _ _ _ _ _) as [tt| |] eqn:Hdays; simpl; [|done|done].
  intros [= <-]. eexists. split; [|split; [|exact Hdays]].
  - pose proof (foldl_max_elem (deadline <$> rest) (deadline s)) as Hmax.
    change (deadline s :: (deadline <$> rest)) with (deadline <$> s :: rest) in Hmax.
    apply list_elem_of_fmap in Hmax as (smax & Hmax & Hin).
    exists smax. by rewrite Hsubjects.
  - intros s' Hs'. rewrite Hsubjects in Hs'. apply foldl_max_ge.
    change (deadline s :: (deadline <$> rest)) with (deadline <$> s :: rest).
    by apply list_elem_of_fmap_2.
Qed.

(** X12. A generated timetable holds exactly the days from today to the
    latest deadline, each once and in calendar order; no day in between is
    left out (and none at all when the latest deadline is before today). *)
Theorem timetable_days_contiguous {H : Type} `{HourOps H}
    (fuel : nat) (subjects : list subject) (plan : gmap string plan_entry) (today : Z)
    (start_hour end_hour : Z) (block_hours : H) (break_minutes : Z) (order_pref : string)
    (timetable : list (Z * list block)) :
  generate_timetable fuel subjects plan today start_hour end_hour block_hours
    break_minutes order_pref = Done (Some timetable) →
  ∃ last_day,
    (∃ s, s ∈ subjects ∧ deadline s = last_day) ∧
    (∀ s, s ∈ subjects → deadline s ≤ last_day) ∧
    timetable.*1 = (λ k, today + Z.of_nat k) <$> seq 0 (Z.to_nat (last_day - today + 1)).
Proof.
  intros Hrun.
  destruct (generate_timetable_last_day _ _ _ _ _ _ _ _ _ _ Hrun)
    as (last_day & (smax & Hin & Hmax) & Hlast & Hdays).
  exists last_day. split; [by exists smax|]. split; [done|].
  apply (days_loop_dates _ _ _ _ _ _ _ _ _ _ _ Hdays).
  intros k Hk%elem_of_seq Hnil.
  assert (smax ∈ active_on subjects (today + Z.of_nat k)) as Hactive
    by (apply active_on_elem; split; [lia|done]).
  rewrite Hnil in Hactive. by apply elem_of_nil in Hactive.
Qed.

Lemma timetable_days_contiguous_witness :
  generate_timetable (H := Q) 2 (math_subjects 739047) math_plan 739047 9 12 1%Q 10 "A"
    = Done (Some math_timetable) ∧
  ∃ last_day,
    (∃ s, s ∈ math_subjects 739047 ∧ deadline s = last_day) ∧
    (∀ s, s ∈ math_subjects 739047 → deadline s ≤ last_day) ∧
    math_timetable.*1 =
      (λ k, 739047 + Z.of_nat k) <$> seq 0 (Z.to_nat (last_day - 739047 + 1)).
Proof.
  assert (generate_timetable (H := Q) 2 (math_subjects 739047) math_plan 739047 9 12 1%Q
            10 "A" = Done (Some math_timetable)) as Hrun by (vm_compute; reflexivity).
  split; [exact Hrun|].
  exact (timetable_days_contiguous 2 (math_subjects 739047) math_plan 739047 9 12 1%Q 10
           "A" math_timetable Hrun).
Defined.

(** X13. On every day of a generated timetable the first block starts at
    [start_hour]:00 and every further block starts exactly [break_minutes]
    after the block before it ends, whatever the parameters. *)
Theorem timetable_blocks_chained {H : Type} `{HourOps H}
    (fuel : nat) (subjects : list subject) (plan : gmap string plan_entry) (today : Z)
    (start_hour end_hour : Z) (block_hours : H) (break_minutes : Z) (order_pref : string)
    (timetable : list (Z * list block)) (day_date : Z) (blocks : list block) :
  generate_timetable fuel subjects plan today start_hour end_hour block_hours
    break_minutes order_pref = Done (Some timetable) →
  (day_date, blocks) ∈ timetable →
  (∀ b, blocks !! 0%nat = Some b → blk_start b = start_hour * us_per_hour) ∧
  (∀ i b b', blocks !! i = Some b → blocks !! S i = Some b' →
     blk_start b' = blk_end b + break_minutes * us_per_minute).
Proof.
  intros Hrun Hin.
  destruct (generate_timetable_days _ _ _ _ _ _ _ _ _ _ Hrun) as (last_day & _ & Hdays).
  destruct (days_loop_elem _ _ _ _ _ _ _ _ _ _ _ _ Hdays Hin) as (k & _ & Hday).
  destruct (schedule_day_entry _ _ _ _ _ _ _ _ _ _ _ _ Hday)
    as (_ & _ & _ & hours & st & Hloop & ->).
  assert (chained (start_hour * us_per_hour) (break_minutes * us_per_minute) st)
    as [Hfirst Hnext _]; [|done].
  refine (while_loop_chained _ _ _ _ _ _ _ _ _ Hloop). by split.
Qed.

Lemma timetable_blocks_chained_witness :
  generate_timetable (H := Q) 2 (math_subjects 739047) math_plan 739047 9 12 1%Q 10 "A"
    = Done (Some math_timetable) ∧
  (739048, math_blocks) ∈ math_timetable ∧
  (∀ b, math_blocks !! 0%nat = Some b → blk_start b = 9 * us_per_hour) ∧
  (∀ i b b', math_blocks !! i = Some b → math_blocks !! S i = Some b' →
     blk_start b' = blk_end b + 10 * us_per_minute).
Proof.
  assert (generate_timetable (H := Q) 2 (math_subjects 739047) math_plan 739047 9 12 1%Q
            10 "A" = Done (Some math_timetable)) as Hrun by (vm_compute; reflexivity).
  assert ((739048, math_blocks) ∈ math_timetable) as Hin by (right; left).
  split; [exact Hrun|]. split; [exact Hin|].
  exact (timetable_blocks_chained 2 (math_subjects 739047) math_plan 739047 9 12 1%Q 10
           "A" math_timetable 739048 math_blocks Hrun Hin).
Defined.

(** ** The length of a block *)

Section AllocationLength.
Context {H : Type} `{HourLaws H}.
Variable block_hours : H.
Variable break_minutes : Z.
Variable end_time : Z.

Local Abbreviation loop := (while_loop block_hours break_minutes end_time).
Local Abbreviation pass := (for_pass block_hours break_minutes end_time).

Lemma for_pass_short order : ∀ st st',
  short_blocks block_hours st → pass order st = Done st' → short_blocks block_hours st'.
Proof.
  induction order as [|sub_name order IH]; intros st st' Hok; cbn [for_pass].
  - by intros [= <-].
  - destruct (hours_left st !! sub_name) as [h|]; [|done].
    destruct (h_le0 h); [by apply IH|].
    assert (short_blocks block_hours (allocate block_hours break_minutes sub_name h st))
      as Hok'.
    { unfold short_blocks. simpl. apply Forall_app. split; [done|].
      repeat constructor. simpl. pose proof (timedelta_min_le block_hours h). lia. }
    destruct (fits _ _ _); [by apply IH|by intros [= <-]].
Qed.

Lemma while_loop_short fuel order : ∀ st st',
  short_blocks block_hours st → loop fuel order st = Done st' → short_blocks block_hours st'.
Proof.
  induction fuel as [|fuel IH]; intros st st' Hok; simpl; [done|].
  destruct (fits _ _ _ && any_hours _); [|by intros [= <-]].
  destruct (pass order st) as [st1| |] eqn:Hpass; simpl; [|done|done].
  pose proof (for_pass_short order st st1 Hok Hpass) as Hok1.
  destruct (all_done _); [by intros [= <-]|]. by apply IH.
Qed.
End AllocationLength.

(** X14. No block of a generated timetable is longer than [block_hours]
    (a subject's last block of a day may be shorter, never longer). *)
Theorem timetable_block_length {H : Type} `{HourLaws H}
    (fuel : nat) (subjects : list subject) (plan : gmap string plan_entry) (today : Z)
    (start_hour end_hour : Z) (block_hours : H) (break_minutes : Z) (order_pref : string)
    (timetable : list (Z * list block)) (day_date : Z) (blocks : list block) (b : block) :
  generate_timetable fuel subjects plan today start_hour end_hour block_hours
    break_minutes order_pref = Done (Some timetable) →
  (day_date, blocks) ∈ timetable → b ∈ blocks →
  blk_end b - blk_start b ≤ timedelta_hours block_hours.
Proof.
  intros Hrun Hin Hb.
  destruct (generate_timetable_days _ _ _ _ _ _ _ _ _ _ Hrun) as (last_day & _ & Hdays).
  destruct (days_loop_elem _ _ _ _ _ _ _ _ _ _ _ _ Hdays Hin) as (k & _ & Hday).
  destruct (schedule_day_entry _ _ _ _ _ _ _ _ _ _ _ _ Hday)
    as (_ & _ & _ & hours & st & Hloop & ->).
  assert (short_blocks block_hours st) as Hshort.
  { refine (while_loop_short _ _ _ _ _ _ _ _ Hloop). by apply Forall_nil. }
  unfold short_blocks in Hshort. rewrite Forall_forall in Hshort. by apply Hshort.
Qed.

Lemma timetable_block_length_witness :
  generate_timetable (H := Q) 3 two_subjects two_plan 739047 9 12 (3 # 2)%Q 15 "C"
    = Done (Some
        [ (739047, [Block 32400000000 36000000000 "Art";
                    Block 36900000000 42300000000 "Math"]);
          (739048, [Block 32400000000 36000000000 "Art";
                    Block 36900000000 42300000000 "Math"]);
          (739049, [Block 32400000000 37800000000 "Math"]) ]) ∧
  36000000000 - 32400000000 ≤ timedelta_hours (3 # 2)%Q.
Proof.
  assert (generate_timetable (H := Q) 3 two_subjects two_plan 739047 9 12 (3 # 2)%Q 15 "C"
    = Done (Some
        [ (739047, [Block 32400000000 36000000000 "Art";
                    Block 36900000000 42300000000 "Math"]);
          (739048, [Block 32400000000 36000000000 "Art";
                    Block 36900000000 42300000000 "Math"]);
          (739049, [Block 32400000000 37800000000 "Math"]) ])) as Hrun
    by (vm_compute; reflexivity).
  split; [exact Hrun|].
  apply (timetable_block_length 3 two_subjects two_plan 739047 9 12 (3 # 2)%Q 15 "C" _
           739047 [Block 32400000000 36000000000 "Art";
                   Block 36900000000 42300000000 "Math"]
           (Block 32400000000 36000000000 "Art") Hrun); by left.
Defined.

(** ** A window shorter than a block *)

Section ShortWindow.
Context {H : Type} `{HourOps H}.
Variable fuel : nat.
Variable subjects : list subject.
Variable plan : gmap string plan_entry.
Variable today : Z.
Variables start_hour end_hour : Z.
Variable block_hours : H.
Variable break_minutes : Z.
Variable order_pref : string.
Hypothesis plan_complete : ∀ s, s ∈ subjects → is_Some (plan !! name s).
Hypothesis start_in_range : 0 ≤ start_hour ≤ 23.
Hypothesis end_in_range : 0 ≤ end_hour ≤ 23.
Hypothesis block_too_long :
  (end_hour - start_hour) * us_per_hour < timedelta_hours block_hours.
Hypothesis some_fuel : (0 < fuel)%nat.

Lemma while_loop_short_window order st :
  current_time st = start_hour * us_per_hour →
  while_loop block_hours break_minutes (end_hour * us_per_hour) fuel order st = Done st.
Proof.
  intros Hstart. destruct fuel as [|fuel']; [lia|]. simpl.
  unfold fits. rewrite Hstart.
  destruct (Z.leb_spec (start_hour * us_per_hour + timedelta_hours block_hours)
              (end_hour * us_per_hour)); [|done].
  lia.
Qed.

Lemma initial_hours_complete active : (∀ s, s ∈ active → s ∈ subjects) →
  ∀ m, ∃ hours, initial_hours (H := H) plan active m = Done hours.
Proof.
  induction active as [|s active IH]; intros Hsub m; simpl; [by eexists|].
  destruct (plan_complete s) as [e ->]; [apply Hsub; by left|].
  apply IH. intros s' Hs'. apply Hsub. by right.
Qed.

Lemma schedule_day_short_window day_offset :
  active_on subjects (today + Z.of_nat day_offset) ≠ [] →
  schedule_day fuel subjects plan today start_hour end_hour block_hours break_minutes
    order_pref day_offset = Done (Some (today + Z.of_nat day_offset, [])).
Proof.
  intros Hactive. unfold schedule_day.
  destruct (active_on subjects (today + Z.of_nat day_offset)) as [|s0 active] eqn:Heq;
    [done|]. rewrite <- Heq.
  assert (∀ s, s ∈ active_on subjects (today + Z.of_nat day_offset) → s ∈ subjects)
    as Hsub by (intros s Hs; by apply active_on_elem in Hs as [_ ?]).
  destruct (initial_hours_complete _ Hsub ∅) as [hours ->].
  rewrite !time_of_hour_in_range by lia. simpl.
  by rewrite while_loop_short_window.
Qed.

Lemma days_loop_short_window offsets :
  (∀ k, k ∈ offsets → active_on subjects (today + Z.of_nat k) ≠ []) →
  days_loop fuel subjects plan today start_hour end_hour block_hours break_minutes
    order_pref offsets = Done ((λ k, (today + Z.of_nat k, [])) <$> offsets).
Proof.
  induction offsets as [|k offsets IH]; intros Hactive; simpl; [done|].
  rewrite schedule_day_short_window by (apply Hactive; by left). simpl.
  rewrite IH by (intros k' Hk'; apply Hactive; by right). done.
Qed.
End ShortWindow.



(** ** How the timetable fails, and when it is empty *)

Lemma time_of_hour_out_of_range hour :
  ¬ (0 ≤ hour ≤ 23) → time_of_hour hour = Raised ValueError.
Proof.
  intros Hout. unfold time_of_hour.
  destruct (Z.leb_spec 0 hour), (Z.leb_spec hour 23); simpl; try done. lia.
Qed.

Lemma initial_hours_missing {H : Type} `{HourOps H} plan active :
  (∃ s, s ∈ active ∧ plan !! name s = None) →
  ∀ m, initial_hours (H := H) plan active m = Raised KeyError.
Proof.
  induction active as [|s active IH]; intros (s' & Hin & Hnone) m; simpl.
  - by apply elem_of_nil in Hin.
  - destruct (plan !! name s) as [e|] eqn:He; [|done].
    apply IH. exists s'. split; [|done].
    apply elem_of_cons in Hin as [->|Hin]; [congruence|done].
Qed.

(** The first day of the loop, when some deadline is not before today. *)
Lemma generate_timetable_first_day {H : Type} `{HourOps H} fuel subjects plan today
    start_hour end_hour (block_hours : H) break_minutes order_pref e :
  plan ≠ ∅ → (∃ s, s ∈ subjects ∧ today ≤ deadline s) →
  schedule_day fuel subjects plan today start_hour end_hour block_hours break_minutes
    order_pref 0 = Raised e →
  generate_timetable fuel subjects plan today start_hour end_hour block_hours
    break_minutes order_pref = Raised e.
Proof.
  intros Hplan (s & Hs & Hle) Hday. unfold generate_timetable.
  destruct subjects as [|s0 rest] eqn:Hsubjects; [by apply elem_of_nil in Hs|].
  rewrite <- Hsubjects in *. rewrite decide_False by done.
  assert (deadline s ≤ foldl Z.max (deadline s0) (deadline <$> rest)) as Hmax.
  { apply foldl_max_ge.
    change (deadline s0 :: (deadline <$> rest)) with (deadline <$> s0 :: rest).
    rewrite <- Hsubjects. by apply list_elem_of_fmap_2. }
  unfold days_between.
  destruct (Z.to_nat (foldl Z.max (deadline s0) (deadline <$> rest) - today + 1))
    as [|n] eqn:Hn; [lia|].
  cbn [seq days_loop]. by rewrite Hday.
Qed.



(** X17. A subject that is still due and has no entry in a non-empty plan
    makes the timetable fail with [KeyError] on the first day, before the
    hours are looked at. *)
Theorem timetable_missing_plan_entry {H : Type} `{HourOps H}
    (fuel : nat) (subjects : list subject) (plan : gmap string plan_entry) (today : Z)
    (start_hour end_hour : Z) (block_hours : H) (break_minutes : Z) (order_pref : string) :
  plan ≠ ∅ →
  (∃ s, s ∈ subjects ∧ today ≤ deadline s ∧ plan !! name s = None) →
  generate_timetable fuel subjects plan today start_hour end_hour block_hours
    break_minutes order_pref = Raised KeyError.
Proof.
  intros Hplan (s & Hs & Hle & Hnone).
  apply generate_timetable_first_day; [done|by exists s|].
  unfold schedule_day. rewrite Z.add_0_r.
  assert (s ∈ active_on subjects today) as Hactive by (by apply active_on_elem).
  destruct (active_on subjects today) as [|s0 active] eqn:Heq;
    [by apply elem_of_nil in Hactive|]. rewrite <- Heq in *.
  rewrite initial_hours_missing; [reflexivity|]. by exists s.
Qed.

Lemma timetable_missing_plan_entry_witness :
  math_plan ≠ ∅ ∧
  (∃ s, s ∈ two_subjects ∧ 739047 ≤ deadline s ∧ math_plan !! name s = None) ∧
  generate_timetable (H := Q) 5 two_subjects math_plan 739047 9 25 1%Q 10 "A"
    = Raised KeyError.
Proof.
  assert (math_plan ≠ ∅) as Hplan by apply insert_non_empty.
  assert (∃ s, s ∈ two_subjects ∧ 739047 ≤ deadline s ∧ math_plan !! name s = None)
    as Hmissing.
  { exists (Subject "Art" 1 739048 70). split; [right; by left|]. split; [simpl; lia|].
    reflexivity. }
  split; [exact Hplan|]. split; [exact Hmissing|].
  exact (timetable_missing_plan_entry 5 two_subjects math_plan 739047 9 25 1%Q 10 "A"
           Hplan Hmissing).
Defined.

(** X18. When every deadline is before today the timetable is generated and
    empty; the hours, the block length and the plan's entries are not looked
    at, so nothing can fail. *)
Theorem timetable_all_overdue {H : Type} `{HourOps H}
    (fuel : nat) (subjects : list subject) (plan : gmap string plan_entry) (today : Z)
    (start_hour end_hour : Z) (block_hours : H) (break_minutes : Z) (order_pref : string) :
  subjects ≠ [] → plan ≠ ∅ → (∀ s, s ∈ subjects → deadline s < today) →
  generate_timetable fuel subjects plan today start_hour end_hour block_hours
    break_minutes order_pref = Done (Some []).
Proof.
  intros Hne Hplan Hpast. unfold generate_timetable.
  destruct subjects as [|s0 rest] eqn:Hsubjects; [done|].
  rewrite decide_False by done.
  pose proof (foldl_max_elem (deadline <$> rest) (deadline s0)) as Hmax.
  change (deadline s0 :: (deadline <$> rest)) with (deadline <$> s0 :: rest) in Hmax.
  apply list_elem_of_fmap in Hmax as (smax & Hmax & Hin).
  specialize (Hpast smax Hin). unfold days_between.
  replace (Z.to_nat (foldl Z.max (deadline s0) (deadline <$> rest) - today + 1))
    with 0%nat by lia.
  done.
Qed.

Lemma timetable_all_overdue_witness :
  two_subjects ≠ [] ∧ two_plan ≠ ∅ ∧ (∀ s, s ∈ two_subjects → deadline s < 739050) ∧
  generate_timetable (H := Q) 0 two_subjects two_plan 739050 99 (-1) 0%Q 0 "A"
    = Done (Some []).
Proof.
  assert (two_plan ≠ ∅) as Hplan by apply insert_non_empty.
  assert (∀ s, s ∈ two_subjects → deadline s < 739050) as Hpast.
  { intros s [->|[->|Hs]%elem_of_cons]%elem_of_cons; [simpl; lia..|].
    by apply elem_of_nil in Hs. }
  split; [discriminate|]. split; [exact Hplan|]. split; [exact Hpast|].
  apply (timetable_all_overdue 0 two_subjects two_plan 739050 99 (-1) 0%Q 0 "A");
    [discriminate|exact Hplan|exact Hpast].
Defined.



(** ** The order of a day under the three policies *)

(** X20. Every policy only reorders: whatever [order_pref] is, the day's
    order holds the names of the day's active subjects, each as often as among
    them.  Under "A", and under any answer other than "B" and "C", it is their
    order in the store; under "B" the name at position [i] is the one at
    position [(day_offset + i) mod n] of the store order; under "C" the names
    are those of the active subjects sorted by deadline, subjects of one
    deadline keeping their store order. *)
Theorem day_order_policies (subjects : list subject) (order_pref : string)
    (day_offset : nat) (day_date : Z) :
  day_order order_pref (fixed_order subjects) day_offset (active_on subjects day_date)
    ≡ₚ name <$> active_on subjects day_date ∧
  (order_pref ≠ "B" → order_pref ≠ "C" →
   day_order order_pref (fixed_order subjects) day_offset (active_on subjects day_date)
     = name <$> active_on subjects day_date) ∧
  (∀ i, (i < length (active_on subjects day_date))%nat →
     day_order "B" (fixed_order subjects) day_offset (active_on subjects day_date) !! i
       = (name <$> active_on subjects day_date)
           !! ((day_offset + i) mod length (active_on subjects day_date))%nat) ∧
  (∃ by_deadline,
     day_order "C" (fixed_order subjects) day_offset (active_on subjects day_date)
       = name <$> by_deadline ∧
     by_deadline ≡ₚ active_on subjects day_date ∧
     StronglySorted (λ s t, deadline s ≤ deadline t) by_deadline ∧
     ∀ d, filter (λ s, deadline s = d) by_deadline
          = filter (λ s, deadline s = d) (active_on subjects day_date)).
Proof.
  split; [apply day_order_perm, active_on_fixed|]. split; [|split].
  - intros HB HC. unfold day_order. case_decide; [|by rewrite !decide_False].
    rewrite filter_all; [done|apply active_on_fixed].
  - intros i Hi. unfold day_order. rewrite decide_False, decide_True by done.
    change (rotate_left ?k ?l) with (rotate day_offset l).
    rewrite lookup_rotate_r by (by rewrite length_fmap).
    unfold rotate_nat_add. rewrite length_fmap.
    by rewrite <- Nat2Z.inj_add, <- Nat2Z.inj_mod, Nat2Z.id.
  - exists (sorted deadline (active_on subjects day_date)).
    split; [done|]. split; [apply sorted_perm|]. split; [apply sorted_sorted|].
    intros d. apply sorted_stable.
Qed.

(** ** A subject without hours gets no block *)

Section AllocationIdle.
Context {H : Type} `{HourOps H}.
Variable block_hours : H.
Variable break_minutes : Z.
Variable end_time : Z.
Variable hours : gmap string H.

Local Abbreviation loop := (while_loop block_hours break_minutes end_time).
Local Abbreviation pass := (for_pass block_hours break_minutes end_time).

Lemma for_pass_idle order : ∀ st st', idle hours st → pass order st = Done st' → idle hours st'.
Proof.
  induction order as [|sub_name order IH]; intros st st' Hok; cbn [for_pass].
  - by intros [= <-].
  - destruct (hours_left st !! sub_name) as [h|] eqn:Hh; [|done].
    destruct (h_le0 h) eqn:Hle; [by apply IH|].
    assert (idle hours (allocate block_hours break_minutes sub_name h st)) as Hok'.
    { intros n h0 Hn Hle0. destruct (Hok n h0 Hn Hle0) as [Hleft Hnone].
      assert (sub_name ≠ n) as Hne by (intros ->; congruence).
      simpl. split; [by rewrite lookup_insert_ne|].
      apply Forall_app. split; [done|]. by repeat constructor. }
    destruct (fits _ _ _); [by apply IH|by intros [= <-]].
Qed.

Lemma while_loop_idle fuel order : ∀ st st', idle hours st → loop fuel order st = Done st' → idle hours st'.
Proof.
  induction fuel as [|fuel IH]; intros st st' Hok; simpl; [done|].
  destruct (fits _ _ _ && any_hours _); [|by intros [= <-]].
  destruct (pass order st) as [st1| |] eqn:Hpass; simpl; [|done|done].
  pose proof (for_pass_idle order st st1 Hok Hpass) as Hok1.
  destruct (all_done _); [by intros [= <-]|]. by apply IH.
Qed.
End AllocationIdle.

Lemma initial_hours_values {H : Type} `{HourOps H} plan active : ∀ (m hours : gmap string H),
  initial_hours plan active m = Done hours →
  (∀ n h, m !! n = Some h → ∃ e, plan !! n = Some e ∧ h = of_int (daily_hours e)) →
  ∀ n h, hours !! n = Some h → ∃ e, plan !! n = Some e ∧ h = of_int (daily_hours e).
Proof.
  induction active as [|s active IH]; intros m hours; simpl.
  - by intros [= <-].
  - destruct (plan !! name s) as [e|] eqn:He; [|done]. intros Hrun Hm.
    apply (IH _ _ Hrun). intros n h. destruct (decide (name s = n)) as [<-|Hne].
    + rewrite lookup_insert_eq. intros [= <-]. by exists e.
    + rewrite lookup_insert_ne by done. apply Hm.
Qed.

(** The entry of a day, with the hours the day starts from. *)
Lemma schedule_day_hours {H : Type} `{HourOps H} fuel subjects plan today start_hour
    end_hour (block_hours : H) break_minutes order_pref day_offset day_date blocks :
  schedule_day fuel subjects plan today start_hour end_hour block_hours break_minutes
    order_pref day_offset = Done (Some (day_date, blocks)) →
  ∃ hours st,
    initial_hours plan (active_on subjects day_date) ∅ = Done hours ∧
    while_loop block_hours break_minutes (end_hour * us_per_hour) fuel
      (day_order order_pref (fixed_order subjects) day_offset (active_on subjects day_date))
      {| hours_left := hours; current_time := start_hour * us_per_hour; day_schedule := [] |}
      = Done st ∧
    blocks = day_schedule st.
Proof.
  unfold schedule_day.
  destruct (active_on subjects (today + Z.of_nat day_offset)) as [|s0 active] eqn:Hactive;
    [done|]. rewrite <- Hactive.
  destruct (initial_hours _ _ _) as [hours| |] eqn:Hhours; simpl; [|done|done].
  destruct (time_of_hour start_hour) as [current| |] eqn:Hstart; simpl; [|done|done].
  destruct (time_of_hour end_hour) as [end_time| |] eqn:Hend; simpl; [|done|done].
  apply time_of_hour_Done in Hstart as [? ->]. apply time_of_hour_Done in Hend as [? ->].
  destruct (while_loop _ _ _ _ _ _) as [st| |] eqn:Hloop; simpl; [|done|done].
  intros [= <- <-]. by exists hours, st.
Qed.

(** X21. Only subjects with hours to study get blocks: every block of a
    generated timetable bears a name that has an entry in the plan, and the
    [daily_hours] of that entry are positive. *)
Theorem timetable_blocks_have_hours {H : Type} `{HourOps H}
    (fuel : nat) (subjects : list subject) (plan : gmap string plan_entry) (today : Z)
    (start_hour end_hour : Z) (block_hours : H) (break_minutes : Z) (order_pref : string)
    (timetable : list (Z * list block)) (day_date : Z) (blocks : list block) (b : block) :
  generate_timetable fuel subjects plan today start_hour end_hour block_hours
    break_minutes order_pref = Done (Some timetable) →
  (day_date, blocks) ∈ timetable → b ∈ blocks →
  ∃ e, plan !! blk_subject b = Some e ∧ h_le0 (of_int (daily_hours e) : H) = false.
Proof.
  intros Hrun Hin Hb.
  destruct (generate_timetable_days _ _ _ _ _ _ _ _ _ _ Hrun) as (last_day & _ & Hdays).
  destruct (days_loop_elem _ _ _ _ _ _ _ _ _ _ _ _ Hdays Hin) as (k & _ & Hday).
  destruct (schedule_day_hours _ _ _ _ _ _ _ _ _ _ _ _ Hday)
    as (hours & st & Hhours & Hloop & ->).
  assert (labelled (name <$> active_on subjects day_date) st) as Hlabels.
  { refine (while_loop_labelled _ _ _ _ _ _ _ _ _ _ Hloop); [|by apply Forall_nil].
    intros n Hn.
    by rewrite (day_order_perm order_pref _ k _ (active_on_fixed subjects day_date)) in Hn. }
  assert (idle hours st) as Hidle.
  { refine (while_loop_idle _ _ _ _ _ _ _ _ _ Hloop).
    intros n h Hn _. split; [done|]. by apply Forall_nil. }
  unfold labelled in Hlabels. rewrite Forall_forall in Hlabels.
  pose proof (proj2 (initial_hours_keys _ _ _ _ Hhours (blk_subject b))
                (or_intror (Hlabels b Hb))) as [h Hh].
  destruct (initial_hours_values _ _ _ _ Hhours) with (n := blk_subject b) (h := h)
    as (e & He & ->); [|done|].
  { intros n h'. by rewrite lookup_empty. }
  exists e. split; [done|].
  destruct (h_le0 (of_int (daily_hours e))) eqn:Hle; [|done].
  destruct (Hidle _ _ Hh Hle) as [_ Hnone]. rewrite Forall_forall in Hnone.
  by destruct (Hnone b Hb).
Qed.

Lemma timetable_blocks_have_hours_witness :
  generate_timetable (H := Q) 2 (math_subjects 739047) math_plan 739047 9 12 1%Q 10 "A"
    = Done (Some math_timetable) ∧
  (739048, math_blocks) ∈ math_timetable ∧
  Block 32400000000 36000000000 "Math" ∈ math_blocks ∧
  ∃ e, math_plan !! "Math" = Some e ∧ h_le0 (of_int (daily_hours e) : Q) = false.
Proof.
  assert (generate_timetable (H := Q) 2 (math_subjects 739047) math_plan 739047 9 12 1%Q
            10 "A" = Done (Some math_timetable)) as Hrun by (vm_compute; reflexivity).
  assert ((739048, math_blocks) ∈ math_timetable) as Hin by (right; left).
  assert (Block 32400000000 36000000000 "Math" ∈ math_blocks) as Hb by left.
  split; [exact Hrun|]. split; [exact Hin|]. split; [exact Hb|].
  exact (timetable_blocks_have_hours 2 (math_subjects 739047) math_plan 739047 9 12 1%Q 10
           "A" math_timetable 739048 math_blocks _ Hrun Hin Hb).
Defined.

(** ** Saving and loading *)

Lemma digit_val_digit k : 0 ≤ k ≤ 9 → digit_val (digit k) = Some k.
Proof.
  intros Hk.
  assert (k = 0 ∨ k = 1 ∨ k = 2 ∨ k = 3 ∨ k = 4 ∨ k = 5 ∨ k = 6 ∨ k = 7 ∨ k = 8 ∨ k = 9)
    as Hcases by lia.
  repeat (destruct Hcases as [->|Hcases]; [reflexivity|]). by subst.
Qed.

Lemma digit_not_sep k : 0 ≤ k ≤ 9 → digit k ≠ "-"%char ∧ digit k ≠ " "%char.
Proof.
  intros Hk.
  assert (k = 0 ∨ k = 1 ∨ k = 2 ∨ k = 3 ∨ k = 4 ∨ k = 5 ∨ k = 6 ∨ k = 7 ∨ k = 8 ∨ k = 9)
    as Hcases by lia.
  repeat (destruct Hcases as [->|Hcases]; [split; discriminate|]). subst. split; discriminate.
Qed.

Local Ltac name_digit Hk :=
  match type of Hk with
  | 0 ≤ ?k ≤ 9 =>
      let E := fresh "E" in
      let N := fresh "N" in
      pose proof (digit_val_digit k Hk) as E;
      pose proof (digit_not_sep k Hk) as N;
      generalize dependent (digit k); intros ? E N
  end.

Lemma strptime_format_ymd y m d :
  0 ≤ y ≤ 9999 → 1 ≤ m ≤ 12 → 1 ≤ d ≤ 31 →
  py_strptime_date (format_ymd y m d) = ymd_to_ordinal y m d.
Proof.
  intros Hy Hm Hd.
  assert (0 ≤ y / 1000 ≤ 9 ∧ 0 ≤ y / 100 mod 10 ≤ 9 ∧ 0 ≤ y / 10 mod 10 ≤ 9 ∧
          0 ≤ y mod 10 ≤ 9 ∧ 0 ≤ m / 10 ≤ 9 ∧ 0 ≤ m mod 10 ≤ 9 ∧
          0 ≤ d / 10 ≤ 9 ∧ 0 ≤ d mod 10 ≤ 9) as (H1 & H2 & H3 & H4 & H5 & H6 & H7 & H8)
    by (repeat split; Z.div_mod_to_equations; lia).
  assert (1000 * (y / 1000) + 100 * (y / 100 mod 10) + 10 * (y / 10 mod 10) + y mod 10 = y)
    as Ey by (Z.div_mod_to_equations; lia).
  assert (10 * (m / 10) + m mod 10 = m) as Em by (Z.div_mod_to_equations; lia).
  assert (10 * (d / 10) + d mod 10 = d) as Ed by (Z.div_mod_to_equations; lia).
  unfold py_strptime_date, format_ymd, four_digits, two_digits.
  name_digit H1. name_digit H2. name_digit H3. name_digit H4.
  name_digit H5. name_digit H6. name_digit H7. name_digit H8.
  simpl.
  repeat match goal with
         | E : digit_val ?c = Some _ |- context [digit_val ?c] => rewrite E; simpl
         | N : ?c ≠ "-"%char ∧ _ |- context [decide (?c = "-"%char)] =>
             rewrite (decide_False (P := c = "-"%char)) by apply N; simpl
         | N : _ ∧ ?c ≠ " "%char |- context [decide (?c = " "%char)] =>
             rewrite (decide_False (P := c = " "%char)) by apply N; simpl
         end.
  rewrite Em, Ed, Ey.
  assert ((1 <=? m) && (m <=? 12) = true) as -> by lia.
  assert ((1 <=? d) && (d <=? 31) = true) as -> by lia.
  reflexivity.
Qed.

Lemma cycle_ok_from_spec fuel r x :
  cycle_ok_from fuel r = true → r ≤ x < r + Z.of_nat fuel → cycle_ok x = true.
Proof.
  revert r. induction fuel as [|fuel IH]; intros r Hall Hx; [lia|].
  simpl in Hall. apply andb_prop in Hall as [Hr Hrest].
  destruct (decide (x = r)) as [->|Hne]; [done|].
  apply (IH (r + 1)); [done|lia].
Qed.

Lemma cycle_checked : cycle_ok_from (Z.to_nat 146097) 0 = true.
Proof. vm_compute. reflexivity. Qed.

Lemma is_leap_shift y k : is_leap (y + 400 * k) = is_leap y.
Proof.
  unfold is_leap.
  replace ((y + 400 * k) mod 4) with (y mod 4)
    by (replace (y + 400 * k) with (y + (100 * k) * 4) by lia; by rewrite Z_mod_plus_full).
  replace ((y + 400 * k) mod 100) with (y mod 100)
    by (replace (y + 400 * k) with (y + (4 * k) * 100) by lia; by rewrite Z_mod_plus_full).
  replace ((y + 400 * k) mod 400) with (y mod 400)
    by (replace (y + 400 * k) with (y + k * 400) by lia; by rewrite Z_mod_plus_full).
  reflexivity.
Qed.

Lemma days_in_month_shift y k m : days_in_month (y + 400 * k) m = days_in_month y m.
Proof. unfold days_in_month. by rewrite is_leap_shift. Qed.

Lemma days_before_month_shift y k m :
  days_before_month (y + 400 * k) m = days_before_month y m.
Proof. induction m as [|m IH]; simpl; [done|]. by rewrite IH, days_in_month_shift. Qed.

Lemma days_before_year_shift y k :
  days_before_year (y + 400 * k) = days_before_year y + 146097 * k.
Proof.
  unfold days_before_year. cbv zeta.
  replace ((y + 400 * k - 1) / 4) with ((y - 1) / 4 + 100 * k)
    by (replace (y + 400 * k - 1) with (y - 1 + (100 * k) * 4) by lia;
        by rewrite Z.div_add by lia).
  replace ((y + 400 * k - 1) / 100) with ((y - 1) / 100 + 4 * k)
    by (replace (y + 400 * k - 1) with (y - 1 + (4 * k) * 100) by lia;
        by rewrite Z.div_add by lia).
  replace ((y + 400 * k - 1) / 400) with ((y - 1) / 400 + k)
    by (replace (y + 400 * k - 1) with (y - 1 + k * 400) by lia;
        by rewrite Z.div_add by lia).
  lia.
Qed.

Lemma days_in_month_le y m : 28 ≤ days_in_month y m ≤ 31.
Proof.
  unfold days_in_month.
  destruct (m =? 2); [destruct (is_leap y); lia|].
  destruct ((m =? 4) || (m =? 6) || (m =? 9) || (m =? 11)); lia.
Qed.

Lemma ymd_to_ordinal_Some y m d o :
  ymd_to_ordinal y m d = Some o →
  1 ≤ y ≤ 9999 ∧ 1 ≤ m ≤ 12 ∧ 1 ≤ d ≤ days_in_month y m ∧
  o = days_before_year y + days_before_month y (Z.to_nat m) + d.
Proof.
  unfold ymd_to_ordinal.
  destruct ((1 <=? y) && (y <=? 9999) && (1 <=? m) && (m <=? 12)
            && (1 <=? d) && (d <=? days_in_month y m)) eqn:Hok; [|done].
  intros [= <-]. repeat split; lia.
Qed.

Lemma ymd_to_ordinal_shift y m d o k :
  ymd_to_ordinal y m d = Some o → 0 ≤ k → y + 400 * k ≤ 9999 →
  ymd_to_ordinal (y + 400 * k) m d = Some (o + 146097 * k).
Proof.
  intros (Hy & Hm & Hd & ->)%ymd_to_ordinal_Some Hk Hmax.
  unfold ymd_to_ordinal.
  rewrite days_in_month_shift, days_before_month_shift, days_before_year_shift.
  replace ((1 <=? y + 400 * k) && (y + 400 * k <=? 9999) && (1 <=? m) && (m <=? 12)
           && (1 <=? d) && (d <=? days_in_month y m)) with true by lia.
  f_equal. lia.
Qed.

(** [fromordinal] and [toordinal] are inverse on the days of the calendar. *)
Lemma ord2ymd_spec d :
  1 ≤ d ≤ last_day_of_calendar →
  ∃ y m dd, ord2ymd d = (y, m, dd) ∧ ymd_to_ordinal y m dd = Some d.
Proof.
  unfold last_day_of_calendar. intros Hd.
  pose proof (cycle_ok_from_spec _ 0 ((d - 1) mod 146097) cycle_checked) as Hok.
  unfold ord2ymd.
  assert (0 ≤ (d - 1) mod 146097 < 146097) as Hr by (apply Z.mod_pos_bound; lia).
  assert (0 ≤ (d - 1) / 146097 ≤ 24) as Hk by (Z.div_mod_to_equations; lia).
  assert (d - 1 = 146097 * ((d - 1) / 146097) + (d - 1) mod 146097) as Hsplit
    by (apply Z.div_mod; lia).
  specialize (Hok ltac:(lia)).
  unfold cycle_ok in Hok.
  destruct (ord2ymd_cycle ((d - 1) mod 146097)) as [[y m] dd].
  apply andb_prop in Hok as [Hrange Hord%bool_decide_eq_true].
  exists (y + 400 * ((d - 1) / 146097)), m, dd. split; [done|].
  rewrite (ymd_to_ordinal_shift y m dd _ _ Hord); [f_equal; lia|lia|].
  destruct (decide ((d - 1) / 146097 = 24)) as [Hlast|Hnot]; [|lia].
  assert ((d - 1) mod 146097 ≤ 145730) as Hsmall by lia.
  replace (146097 - 367 <? (d - 1) mod 146097) with false in Hrange by lia.
  lia.
Qed.

Lemma strptime_strftime d :
  1 ≤ d ≤ last_day_of_calendar → py_strptime_date (strftime_date d) = Some d.
Proof.
  intros Hd. destruct (ord2ymd_spec d Hd) as (y & m & dd & Hymd & Hord).
  unfold strftime_date. rewrite Hymd.
  pose proof (ymd_to_ordinal_Some _ _ _ _ Hord) as (Hy & Hm & Hdd & _).
  pose proof (days_in_month_le y m).
  rewrite strptime_format_ymd by lia. done.
Qed.

(** X22. Saving and loading are inverse: when every deadline lies between
    1000-01-01 and 9999-12-31, reading back the list that [save_subjects]
    writes gives the subjects themselves, whatever today's date is (no
    deadline falls back to today). *)
Theorem load_subjects_after_save today subs :
  Forall (λ s, first_written_day ≤ deadline s ≤ last_day_of_calendar) subs →
  load_subjects py_strptime_date today (serializable subs) = subs.
Proof.
  unfold load_subjects, serializable, first_written_day.
  induction 1 as [|s subs Hs _ IH]; [done|].
  rewrite !fmap_cons, IH. f_equal.
  destruct s as [n df dl mk]; simpl in *.
  by rewrite strptime_strftime by lia.
Qed.

Lemma load_subjects_after_save_witness :
  load_subjects py_strptime_date 739000 (serializable clash_example) = clash_example.
Proof.
  apply load_subjects_after_save.
  unfold clash_example, first_written_day, last_day_of_calendar.
  repeat constructor; simpl; lia.
Defined.

(** ** The [timetable] command *)

Lemma generate_plan_complete predict_study_hours today subs plan :
  generate_plan predict_study_hours today subs = Some plan →
  ∀ s, s ∈ subs → is_Some (plan !! name s).
Proof.
  intros Hplan s Hs.
  rewrite (generate_plan_lookup _ _ _ _ _ Hplan).
  assert (s ∈ filter (λ s', name s' = name s) subs) as Hin
    by (apply list_elem_of_filter; done).
  destruct (filter (λ s', name s' = name s) subs) as [|s0 l] eqn:Hf using rev_ind.
  - by apply elem_of_nil in Hin.
  - rewrite last_snoc. by eexists.
Qed.


